(** * tube-radar: the transcript server ([server/transcript.py], [server/app.py])

    A shallow embedding of the two Python modules and the properties the
    specification states about them.

    - Python [str] values are sequences of Unicode code points.
    - The external captions library ([youtube_transcript_api]) is not part of
      the repository: its objects are records of the outcomes of their
      methods, and the behaviour of [YouTubeTranscriptApi.list_transcripts]
      is a parameter (class [Provider]).
    - Python exceptions are values; every statement that can raise has an
      [outcome].  Only subclasses of [Exception] are modelled (interpreter
      signals such as [KeyboardInterrupt] are not provider failures).
    - The mutable [result] dictionary of [extract_transcript] and the
      [languages] list of [list_available_languages] are threaded as the
      state of a small state-and-exception monad; a mutation made before an
      exception is raised stays visible to the handlers, as in Python.
    - The state also records the calls made to the library, in order, so
      that what a call of the function asks of the library can be stated.
    - Python floats and the builtin [round(x, 2)] are parameters
      (class [PyFloat]).
    - The values the library hands over have the types it documents; what
      differs between its versions is whether a fetched entry has them as
      attributes, so reading an attribute of an entry has an [outcome]. *)

From Stdlib Require Import List String Ascii NArith Bool Lia.
Import ListNotations.

Set Implicit Arguments.

(* ------------------------------------------------------------------------- *)
(** * Python strings *)
(* ------------------------------------------------------------------------- *)

Definition codepoint := N.
Definition str := list codepoint.

(** Decoder used only to write the string literals of the source (which is
    UTF-8 encoded) as sequences of code points. *)
Fixpoint utf8_decode (bs : list N) : str :=
  match bs with
  | [] => []
  | b :: rest =>
    if (b <? 0x80)%N then b :: utf8_decode rest
    else
      match rest with
      | b1 :: rest1 =>
        if (b <? 0xE0)%N then
          N.lor (N.shiftl (N.land b 0x1F) 6) (N.land b1 0x3F) :: utf8_decode rest1
        else
          match rest1 with
          | b2 :: rest2 =>
            if (b <? 0xF0)%N then
              N.lor (N.shiftl (N.land b 0x0F) 12)
                (N.lor (N.shiftl (N.land b1 0x3F) 6) (N.land b2 0x3F))
              :: utf8_decode rest2
            else
              match rest2 with
              | b3 :: rest3 =>
                N.lor (N.shiftl (N.land b 0x07) 18)
                  (N.lor (N.shiftl (N.land b1 0x3F) 12)
                     (N.lor (N.shiftl (N.land b2 0x3F) 6) (N.land b3 0x3F)))
                :: utf8_decode rest3
              | _ => []
              end
          | _ => []
          end
      | _ => []
      end
  end.

(** [py "text"] is the Python string literal ["text"]. *)
Definition py (s : string) : str :=
  utf8_decode (map N_of_ascii (list_ascii_of_string s)).

Definition str_eqb (a b : str) : bool :=
  if list_eq_dec N.eq_dec a b then true else false.

(** Truth value of a string in a condition: non-empty. *)
Definition truthy (s : str) : bool :=
  match s with [] => false | _ => true end.

(** [str.isspace] on one character (CPython's [Py_UNICODE_ISSPACE]). *)
Definition isspace (c : codepoint) : bool :=
  ((0x09 <=? c) && (c <=? 0x0D) || (0x1C <=? c) && (c <=? 0x20)
   || (c =? 0x85) || (c =? 0xA0) || (c =? 0x1680)
   || (0x2000 <=? c) && (c <=? 0x200A)
   || (c =? 0x2028) || (c =? 0x2029) || (c =? 0x202F) || (c =? 0x205F)
   || (c =? 0x3000))%N.

Fixpoint lstrip (s : str) : str :=
  match s with
  | [] => []
  | c :: rest => if isspace c then lstrip rest else s
  end.

Definition rstrip (s : str) : str := rev (lstrip (rev s)).

(** [s.strip()] *)
Definition strip (s : str) : str := rstrip (lstrip s).

(** [s.split(sep)] for a one-character separator. *)
Fixpoint split (sep : codepoint) (s : str) : list str :=
  match s with
  | [] => [[]]
  | c :: rest =>
    if (c =? sep)%N then [] :: split sep rest
    else
      match split sep rest with
      | tok :: toks => (c :: tok) :: toks
      | [] => [[c]]
      end
  end.

(** [sep.join(xs)] *)
Fixpoint join (sep : str) (xs : list str) : str :=
  match xs with
  | [] => []
  | x :: rest =>
    match rest with
    | [] => x
    | _ :: _ => x ++ sep ++ join sep rest
    end
  end.

(** [s.startswith(prefix)] and [needle in s]. *)
Fixpoint startswith (s prefix : str) : bool :=
  match prefix, s with
  | [], _ => true
  | p :: prefix', c :: s' => (p =? c)%N && startswith s' prefix'
  | _ :: _, [] => false
  end.

Fixpoint contains (s needle : str) : bool :=
  startswith s needle
  || match s with
     | [] => false
     | _ :: s' => contains s' needle
     end.

(** [s] has no whitespace at either end. *)
Definition trimmed (s : str) : bool :=
  match s with
  | [] => true
  | c :: _ => negb (isspace c) && negb (isspace (last s c))
  end.

Definition comma : codepoint := 44%N.
Definition newline : str := [10%N].

(* ------------------------------------------------------------------------- *)
(** * Exceptions *)
(* ------------------------------------------------------------------------- *)

(** The exception classes the source names; [Exception_] stands for
    [Exception] itself, and, as the class of a raised value, for any subclass
    of it other than the four imported ones. *)
Inductive pyclass : Type :=
| TranscriptsDisabled
| NoTranscriptFound
| VideoUnavailable
| NoTranscriptAvailable
| Exception_.

Definition pyclass_eqb (a b : pyclass) : bool :=
  match a, b with
  | TranscriptsDisabled, TranscriptsDisabled
  | NoTranscriptFound, NoTranscriptFound
  | VideoUnavailable, VideoUnavailable
  | NoTranscriptAvailable, NoTranscriptAvailable
  | Exception_, Exception_ => true
  | _, _ => false
  end.

(** A raised exception: its class and [str(e)]. *)
Record exn : Type := Exn { exn_class : pyclass; exn_str : str }.

(** [isinstance(e, c)]: the four library classes are pairwise unrelated and
    all derive from [Exception]. *)
Definition isinstance (e : exn) (c : pyclass) : bool :=
  match c with
  | Exception_ => true
  | _ => pyclass_eqb (exn_class e) c
  end.

Inductive outcome (A : Type) : Type :=
| Returns (a : A)
| Raises (e : exn).
Arguments Raises {A} e.

(* ------------------------------------------------------------------------- *)
(** * The captions library, as the source uses it *)
(* ------------------------------------------------------------------------- *)

Class PyFloat : Type := { float : Type; round2 : float -> float }.

Module YT.
Section Objects.
Context `{PyFloat}.

(** One fetched caption entry: what reading [seg.start], [seg.duration] and
    [seg.text] does.  An entry that has no such attribute (the entries of
    the library's older versions are dictionaries) raises when it is
    read. *)
Record Snippet : Type :=
  { start : outcome float; duration : outcome float; text : outcome str }.

(** A track: its attributes and the outcome of [transcript.fetch()]. *)
Record Transcript : Type :=
  { language_code : str;
    language : str;
    is_generated : bool;
    fetch : outcome (list Snippet) }.

(** What iterating over a [TranscriptList] does: it yields tracks one by
    one, and stops or raises. *)
Inductive iteration : Type :=
| Stop
| Yield (t : Transcript) (rest : iteration)
| Broken (e : exn).

Record TranscriptList : Type :=
  { find_manually_created_transcript : list str -> outcome Transcript;
    find_generated_transcript : list str -> outcome Transcript;
    iter : iteration }.

Fixpoint iteration_of (tracks : list Transcript) : iteration :=
  match tracks with
  | [] => Stop
  | t :: rest => Yield t (iteration_of rest)
  end.

(** The tracks an iteration yields before it ends. *)
Fixpoint yielded (it : iteration) : list Transcript :=
  match it with
  | Yield t rest => t :: yielded rest
  | _ => []
  end.

(** The exception that ends an iteration, if one does. *)
Fixpoint failure (it : iteration) : option exn :=
  match it with
  | Stop => None
  | Yield _ rest => failure rest
  | Broken e => Some e
  end.
End Objects.
End YT.

(** [YouTubeTranscriptApi.list_transcripts(video_id)] *)
Class Provider `{PyFloat} : Type :=
  { list_transcripts : str -> outcome YT.TranscriptList }.

(** Calls made to the library, in the order the code makes them. *)
Inductive call : Type :=
| ListTranscripts (video_id : str)
| FindManual (language_codes : list str)
| FindGenerated (language_codes : list str)
| Iterate
| Fetch (language_code : str).

(* ------------------------------------------------------------------------- *)
(** * Statements: state and exceptions *)
(* ------------------------------------------------------------------------- *)

(** The local variable a function mutates, and the library calls so far. *)
Record frame (L : Type) : Type := Frame { locals : L; calls : list call }.

Definition M (L A : Type) : Type := frame L -> outcome A * frame L.

Definition ret {L A} (a : A) : M L A := fun s => (Returns a, s).

Definition raise {L A} (e : exn) : M L A := fun s => (Raises e, s).

Definition bind {L A B} (m : M L A) (k : A -> M L B) : M L B :=
  fun s =>
    match m s with
    | (Returns a, s') => k a s'
    | (Raises e, s') => (Raises e, s')
    end.

Notation "x <- m ;; k" := (bind m (fun x => k))
  (at level 61, m at next level, right associativity).
Notation "m ;; k" := (bind m (fun _ => k))
  (at level 61, right associativity).

Definition get {L} : M L L := fun s => (Returns (locals s), s).

Definition modify {L} (f : L -> L) : M L unit :=
  fun s => (Returns tt, {| locals := f (locals s); calls := calls s |}).

(** A library call: it is logged, and it returns or raises. *)
Definition perform {L A} (c : call) (o : outcome A) : M L A :=
  fun s => (o, {| locals := locals s; calls := calls s ++ [c] |}).

(** An expression that returns or raises and calls nothing. *)
Definition eval {L A} (o : outcome A) : M L A := fun s => (o, s).

(** [except c as e: h e], tried in order; an exception no clause matches
    propagates. *)
Fixpoint dispatch {L A} (handlers : list (pyclass * (exn -> M L A)))
    (e : exn) : M L A :=
  match handlers with
  | [] => raise e
  | (c, h) :: others => if isinstance e c then h e else dispatch others e
  end.

Definition try_except {L A} (body : M L A)
    (handlers : list (pyclass * (exn -> M L A))) : M L A :=
  fun s =>
    match body s with
    | (Returns a, s') => (Returns a, s')
    | (Raises e, s') => dispatch handlers e s'
    end.

(* ------------------------------------------------------------------------- *)
(** * transcript.py *)
(* ------------------------------------------------------------------------- *)

Section Transcript.
Context `{PyFloat}.

(** An element of [result["segments"]]. *)
Record Segment : Type :=
  { start : float; duration : float; text : str }.

(** The dictionary [extract_transcript] returns. *)
Record TranscriptResult : Type :=
  { success : bool;
    video_id : str;
    language : option str;
    is_generated : bool;
    segments : list Segment;
    full_text : str;
    error : option str }.

Definition set_success (b : bool) (r : TranscriptResult) :=
  {| success := b; video_id := video_id r; language := language r;
     is_generated := is_generated r; segments := segments r;
     full_text := full_text r; error := error r |}.

Definition set_language (l : option str) (r : TranscriptResult) :=
  {| success := success r; video_id := video_id r; language := l;
     is_generated := is_generated r; segments := segments r;
     full_text := full_text r; error := error r |}.

Definition set_is_generated (b : bool) (r : TranscriptResult) :=
  {| success := success r; video_id := video_id r; language := language r;
     is_generated := b; segments := segments r;
     full_text := full_text r; error := error r |}.

Definition set_segments (l : list Segment) (r : TranscriptResult) :=
  {| success := success r; video_id := video_id r; language := language r;
     is_generated := is_generated r; segments := l;
     full_text := full_text r; error := error r |}.

Definition set_full_text (t : str) (r : TranscriptResult) :=
  {| success := success r; video_id := video_id r; language := language r;
     is_generated := is_generated r; segments := segments r;
     full_text := t; error := error r |}.

Definition set_error (e : option str) (r : TranscriptResult) :=
  {| success := success r; video_id := video_id r; language := language r;
     is_generated := is_generated r; segments := segments r;
     full_text := full_text r; error := e |}.

(** The error messages of [extract_transcript]. *)
Definition msg_no_transcript : str :=
  py "이 영상에 사용 가능한 자막이 없습니다.".
Definition msg_disabled : str :=
  py "이 영상은 자막이 비활성화되어 있습니다.".
Definition msg_unavailable : str :=
  py "영상을 찾을 수 없거나 비공개 상태입니다.".
Definition msg_failure_prefix : str :=
  py "자막 추출 중 오류 발생: ".

(** [result = {...}] (lines 40-48) *)
Definition initial_result (video_id : str) : TranscriptResult :=
  {| success := false; video_id := video_id; language := None;
     is_generated := false; segments := []; full_text := [];
     error := None |}.

(** The element built for one fetched entry (lines 94-98): the attributes
    are read in the order of the display, and the first read that raises
    ends it. *)
Definition segment_of (seg : YT.Snippet) : outcome Segment :=
  match YT.start seg with
  | Raises e => Raises e
  | Returns seg_start =>
    match YT.duration seg with
    | Raises e => Raises e
    | Returns seg_duration =>
      match YT.text seg with
      | Raises e => Raises e
      | Returns seg_text =>
        Returns {| start := round2 seg_start;
                   duration := round2 seg_duration;
                   text := seg_text |}
      end
    end
  end.

(** The list of lines 93-100, entry after entry. *)
Fixpoint segments_of (fetched : list YT.Snippet) : outcome (list Segment) :=
  match fetched with
  | [] => Returns []
  | seg :: rest =>
    match segment_of seg with
    | Raises e => Raises e
    | Returns segment =>
      match segments_of rest with
      | Raises e => Raises e
      | Returns others => Returns (segment :: others)
      end
    end
  end.

(** [seg.text for seg in segments] (line 101). *)
Fixpoint texts_of (fetched : list YT.Snippet) : outcome (list str) :=
  match fetched with
  | [] => Returns []
  | seg :: rest =>
    match YT.text seg with
    | Raises e => Raises e
    | Returns seg_text =>
      match texts_of rest with
      | Raises e => Raises e
      | Returns others => Returns (seg_text :: others)
      end
    end
  end.

(** Step 2 (lines 57-63): the first language of the priority list for which
    the library finds a manually created track.  The value is the variable
    [transcript] after the loop. *)
Fixpoint scan_manual (transcript_list : YT.TranscriptList)
    (lang_priority : list str) : M TranscriptResult (option YT.Transcript) :=
  match lang_priority with
  | [] => ret None
  | lang :: rest =>
    try_except
      (transcript <- perform (FindManual [lang])
         (YT.find_manually_created_transcript transcript_list [lang]) ;;
       modify (set_is_generated false) ;;
       ret (Some transcript))
      [(NoTranscriptFound, fun _ => scan_manual transcript_list rest)]
  end.

(** Step 3 (lines 67-73): the same over the generated tracks. *)
Fixpoint scan_generated (transcript_list : YT.TranscriptList)
    (lang_priority : list str) : M TranscriptResult (option YT.Transcript) :=
  match lang_priority with
  | [] => ret None
  | lang :: rest =>
    try_except
      (transcript <- perform (FindGenerated [lang])
         (YT.find_generated_transcript transcript_list [lang]) ;;
       modify (set_is_generated true) ;;
       ret (Some transcript))
      [(NoTranscriptFound, fun _ => scan_generated transcript_list rest)]
  end.

(** Step 4 (lines 77-84): the first track the iteration yields; whatever
    the iteration raises is dropped. *)
Definition any_transcript (transcript_list : YT.TranscriptList)
    : M TranscriptResult (option YT.Transcript) :=
  try_except
    (it <- perform Iterate (Returns (YT.iter transcript_list)) ;;
     match it with
     | YT.Yield t _ =>
       modify (set_is_generated (YT.is_generated t)) ;;
       ret (Some t)
     | YT.Stop => ret None
     | YT.Broken e => raise e
     end)
    [(Exception_, fun _ => ret None)].

(** Step 5 (lines 91-102): each assignment to [result] is made once its
    right-hand side has been evaluated. *)
Definition fetch_into_result (transcript : YT.Transcript)
    : M TranscriptResult unit :=
  fetched <- perform (Fetch (YT.language_code transcript))
    (YT.fetch transcript) ;;
  modify (set_language (Some (YT.language_code transcript))) ;;
  segments <- eval (segments_of fetched) ;;
  modify (set_segments segments) ;;
  texts <- eval (texts_of fetched) ;;
  modify (set_full_text (join newline texts)) ;;
  modify (set_success true).

Context `{!Provider}.

(** The body of the [try] statement (lines 51-102); the [return] of line 88
    ends it, and nothing but [return result] follows the statement. *)
Definition extract_transcript_try (video_id : str)
    (lang_priority : list str) : M TranscriptResult unit :=
  transcript_list <- perform (ListTranscripts video_id)
    (list_transcripts video_id) ;;
  transcript <- scan_manual transcript_list lang_priority ;;
  transcript <- match transcript with
                | None => scan_generated transcript_list lang_priority
                | Some _ => ret transcript
                end ;;
  transcript <- match transcript with
                | None => any_transcript transcript_list
                | Some _ => ret transcript
                end ;;
  match transcript with
  | None => modify (set_error (Some msg_no_transcript))
  | Some transcript => fetch_into_result transcript
  end.

(** [lang_priority] after lines 37-38. *)
Definition default_priority (lang_priority : option (list str)) : list str :=
  match lang_priority with
  | None => [py "ko"; py "en"]
  | Some l => l
  end.

(** The [except] clauses of lines 104-111. *)
Definition extract_transcript_except
    : list (pyclass * (exn -> M TranscriptResult unit)) :=
  [(TranscriptsDisabled,
    fun _ => modify (set_error (Some msg_disabled)));
   (VideoUnavailable,
    fun _ => modify (set_error (Some msg_unavailable)));
   (NoTranscriptAvailable,
    fun _ => modify (set_error (Some msg_no_transcript)));
   (Exception_,
    fun e => modify (set_error (Some (msg_failure_prefix ++ exn_str e))))].

(** The function as a statement (lines 37-113). *)
Definition extract_transcript_stmt (video_id : str)
    (lang_priority : option (list str))
    : M TranscriptResult TranscriptResult :=
  let lang_priority := default_priority lang_priority in
  try_except (extract_transcript_try video_id lang_priority)
    extract_transcript_except ;;
  get.

Definition run_extract_transcript (video_id : str)
    (lang_priority : option (list str))
    : outcome TranscriptResult * frame TranscriptResult :=
  extract_transcript_stmt video_id lang_priority
    {| locals := initial_result video_id; calls := [] |}.

(** What a call of [extract_transcript] does: it returns a dictionary or
    raises. *)
Definition extract_transcript (video_id : str)
    (lang_priority : option (list str)) : outcome TranscriptResult :=
  fst (run_extract_transcript video_id lang_priority).

(** The library calls a call of [extract_transcript] makes. *)
Definition extract_transcript_calls (video_id : str)
    (lang_priority : option (list str)) : list call :=
  calls (snd (run_extract_transcript video_id lang_priority)).

(** An element of [languages]. *)
Record LanguageInfo : Type :=
  { code : str; name : str; info_is_generated : bool }.

(** The dictionary [list_available_languages] returns; [languages_error]
    is [None] when the key ["error"] is absent. *)
Record LanguagesResult : Type :=
  { languages_success : bool;
    languages_video_id : str;
    languages : list LanguageInfo;
    languages_error : option str }.

Definition language_info (t : YT.Transcript) : LanguageInfo :=
  {| code := YT.language_code t;
     name := YT.language t;
     info_is_generated := YT.is_generated t |}.

(** The loop of lines 121-126 over the list [languages]. *)
Fixpoint append_languages (it : YT.iteration)
    : M (list LanguageInfo) unit :=
  match it with
  | YT.Stop => ret tt
  | YT.Yield t rest =>
    modify (fun languages => languages ++ [language_info t]) ;;
    append_languages rest
  | YT.Broken e => raise e
  end.

Definition list_available_languages_stmt (video_id : str)
    : M (list LanguageInfo) LanguagesResult :=
  try_except
    (transcript_list <- perform (ListTranscripts video_id)
       (list_transcripts video_id) ;;
     modify (fun _ => []) ;;
     it <- perform Iterate (Returns (YT.iter transcript_list)) ;;
     append_languages it ;;
     languages <- get ;;
     ret {| languages_success := true; languages_video_id := video_id;
            languages := languages; languages_error := None |})
    [(Exception_,
      fun e =>
        ret {| languages_success := false; languages_video_id := video_id;
               languages := [];
               languages_error := Some (exn_str e) |})].

Definition list_available_languages (video_id : str)
    : outcome LanguagesResult :=
  fst (list_available_languages_stmt video_id
         {| locals := []; calls := [] |}).

(* ----------------------------------------------------------------------- *)
(** * app.py *)
(* ----------------------------------------------------------------------- *)

(** [lang_list] of line 28. *)
Definition lang_list (lang : str) : list str :=
  map strip (filter (fun l => truthy (strip l)) (split comma lang)).

(** The value of the parameter [lang]: [Query("ko,en")] gives the default
    when the request has no [lang]. *)
Definition query_lang (lang : option str) : str :=
  match lang with
  | None => py "ko,en"
  | Some s => s
  end.

(** GET /api/transcript *)
Definition get_transcript (v : str) (lang : option str)
    : outcome TranscriptResult :=
  extract_transcript v (Some (lang_list (query_lang lang))).

(** GET /api/languages *)
Definition get_languages (v : str) : outcome LanguagesResult :=
  list_available_languages v.

End Transcript.

(* ------------------------------------------------------------------------- *)
(** * Videos and their tracks *)
(* ------------------------------------------------------------------------- *)

Section Tracks.
Context `{PyFloat}.

(** [tracks] has a track of language [lang] that is generated
    ([generated = true]) or manually created ([generated = false]). *)
Definition has_track (generated : bool) (tracks : list YT.Transcript)
    (lang : str) : bool :=
  existsb
    (fun t => Bool.eqb (YT.is_generated t) generated
              && str_eqb (YT.language_code t) lang)
    tracks.

(** What the library guarantees of a search for the one language [lang]
    among the tracks [tracks] of a video: it returns a track of that kind
    and language, or raises [NoTranscriptFound] when there is none. *)
Definition finds (generated : bool) (tracks : list YT.Transcript)
    (lang : str) (o : outcome YT.Transcript) : Prop :=
  match o with
  | Returns t =>
    In t tracks /\ YT.is_generated t = generated
    /\ YT.language_code t = lang
  | Raises e =>
    exn_class e = NoTranscriptFound
    /\ has_track generated tracks lang = false
  end.

(** The [TranscriptList] of a video whose available tracks are [tracks],
    in the library's enumeration order. *)
Record lists_tracks (transcript_list : YT.TranscriptList)
    (tracks : list YT.Transcript) : Prop :=
  { lists_iter : YT.iter transcript_list = YT.iteration_of tracks;
    lists_manual : forall lang,
      finds false tracks lang
        (YT.find_manually_created_transcript transcript_list [lang]);
    lists_generated : forall lang,
      finds true tracks lang
        (YT.find_generated_transcript transcript_list [lang]) }.

(** A [TranscriptList] with these guarantees: a search takes the first
    track of the kind in the first of the languages that has one. *)
Fixpoint find_transcript (generated : bool) (tracks : list YT.Transcript)
    (language_codes : list str) : outcome YT.Transcript :=
  match language_codes with
  | [] => Raises (Exn NoTranscriptFound (py "No transcripts were found"))
  | lang :: others =>
    match find (fun t => Bool.eqb (YT.is_generated t) generated
                         && str_eqb (YT.language_code t) lang) tracks with
    | Some t => Returns t
    | None => find_transcript generated tracks others
    end
  end.

Definition transcript_list_of (tracks : list YT.Transcript)
    : YT.TranscriptList :=
  {| YT.find_manually_created_transcript := find_transcript false tracks;
     YT.find_generated_transcript := find_transcript true tracks;
     YT.iter := YT.iteration_of tracks |}.

(** The dictionary returned once the track [t] has been chosen with
    [result["is_generated"] = generated]: the fetched track, or the report
    of the exception that [t.fetch()] or the reading of an entry raised. *)
Definition failure_result (video_id : str) (generated : bool) (msg : str)
    : TranscriptResult :=
  {| success := false; video_id := video_id; language := None;
     is_generated := generated; segments := []; full_text := [];
     error := Some msg |}.

Definition fetched_result (video_id : str) (generated : bool)
    (t : YT.Transcript) (segs : list Segment) : TranscriptResult :=
  {| success := true; video_id := video_id;
     language := Some (YT.language_code t);
     is_generated := generated;
     segments := segs;
     full_text := join newline (map (fun seg => text seg) segs);
     error := None |}.

(** The report of an exception raised after [t.fetch()] returned, while the
    entries were read: [language] is already stored (line 92). *)
Definition unreadable_result (video_id : str) (generated : bool)
    (t : YT.Transcript) (msg : str) : TranscriptResult :=
  {| success := false; video_id := video_id;
     language := Some (YT.language_code t);
     is_generated := generated; segments := []; full_text := [];
     error := Some msg |}.

(** The message the handlers of lines 104-111 store for [e]. *)
Definition error_message (e : exn) : str :=
  match exn_class e with
  | TranscriptsDisabled => msg_disabled
  | VideoUnavailable => msg_unavailable
  | NoTranscriptAvailable => msg_no_transcript
  | _ => msg_failure_prefix ++ exn_str e
  end.

Definition result_of_track (video_id : str) (generated : bool)
    (t : YT.Transcript) : TranscriptResult :=
  match YT.fetch t with
  | Returns fetched =>
    match segments_of fetched with
    | Returns segs => fetched_result video_id generated t segs
    | Raises e => unreadable_result video_id generated t (error_message e)
    end
  | Raises e => failure_result video_id generated (error_message e)
  end.

(** A failure the handlers of [extract_transcript] have a message of their
    own for. *)
Definition recognized (c : pyclass) : bool :=
  match c with
  | TranscriptsDisabled | VideoUnavailable | NoTranscriptAvailable => true
  | _ => false
  end.

(** A call that searches for a track of a priority language. *)
Definition is_priority_search (c : call) : bool :=
  match c with
  | FindManual _ | FindGenerated _ => true
  | _ => false
  end.

(** The priority list as the specification words it: the comma-separated
    tokens of [lang], each stripped, the empty ones removed. *)
Definition spec_tokens (lang : str) : list str :=
  filter truthy (map strip (split comma lang)).

(** The dictionaries of [list_available_languages]. *)
Definition languages_found (video_id : str) (tracks : list YT.Transcript)
    : LanguagesResult :=
  {| languages_success := true; languages_video_id := video_id;
     languages := map language_info tracks; languages_error := None |}.

Definition languages_failed (video_id : str) (e : exn) : LanguagesResult :=
  {| languages_success := false; languages_video_id := video_id;
     languages := []; languages_error := Some (exn_str e) |}.
End Tracks.

(* ------------------------------------------------------------------------- *)
(** * Sample videos *)
(* ------------------------------------------------------------------------- *)

(** Times in hundredths of a second, which [round(x, 2)] leaves as they
    are. *)
Definition centiseconds : PyFloat := {| float := N; round2 := fun x => x |}.

Module Samples.
#[local] Existing Instance centiseconds.

Definition hello : list YT.Snippet :=
  [ {| YT.start := Returns 0%N; YT.duration := Returns 150%N;
       YT.text := Returns (py "hello") |};
    {| YT.start := Returns 150%N; YT.duration := Returns 200%N;
       YT.text := Returns (py "world") |} ].

(** The segments of [hello]. *)
Definition hello_segments : list Segment :=
  [ {| start := 0%N; duration := 150%N; text := py "hello" |};
    {| start := 150%N; duration := 200%N; text := py "world" |} ].

(** An entry that is a dictionary: it has no attribute. *)
Definition dict_entry : YT.Snippet :=
  let e := Exn Exception_ (py "'dict' object has no attribute 'start'") in
  {| YT.start := Raises e; YT.duration := Raises e; YT.text := Raises e |}.

(** A track whose download returns dictionaries. *)
Definition fr_dicts : YT.Transcript :=
  {| YT.language_code := py "fr"; YT.language := py "French";
     YT.is_generated := true; YT.fetch := Returns [dict_entry] |}.

Definition en_manual : YT.Transcript :=
  {| YT.language_code := py "en"; YT.language := py "English";
     YT.is_generated := false; YT.fetch := Returns hello |}.

Definition en_generated : YT.Transcript :=
  {| YT.language_code := py "en";
     YT.language := py "English (auto-generated)";
     YT.is_generated := true; YT.fetch := Returns hello |}.

Definition ko_generated : YT.Transcript :=
  {| YT.language_code := py "ko"; YT.language := py "Korean";
     YT.is_generated := true; YT.fetch := Returns hello |}.

Definition fr_generated : YT.Transcript :=
  {| YT.language_code := py "fr"; YT.language := py "French";
     YT.is_generated := true; YT.fetch := Returns hello |}.

(** A track whose download fails. *)
Definition fr_blocked : YT.Transcript :=
  {| YT.language_code := py "fr"; YT.language := py "French";
     YT.is_generated := true;
     YT.fetch := Raises (Exn Exception_ (py "connection reset")) |}.

(** A provider that gives every video the tracks [tracks]. *)
Definition serving (tracks : list YT.Transcript) : Provider :=
  {| list_transcripts := fun _ => Returns (transcript_list_of tracks) |}.

(** A provider for which listing the tracks raises [e]. *)
Definition failing (e : exn) : Provider :=
  {| list_transcripts := fun _ => Raises e |}.

(** A provider whose track list has no track of any asked language and
    cannot be iterated. *)
Definition unlistable (e : exn) : Provider :=
  {| list_transcripts := fun _ =>
       Returns
         {| YT.find_manually_created_transcript :=
              find_transcript false [];
            YT.find_generated_transcript := find_transcript true [];
            YT.iter := YT.Broken e |} |}.

(** A provider for which the video [invalid_id] does not exist and every
    other video has its captions disabled. *)
Definition unavailable_or_disabled : Provider :=
  {| list_transcripts := fun video_id =>
       if str_eqb video_id (py "invalid_id")
       then Raises (Exn VideoUnavailable (py "The video is no longer available"))
       else Raises (Exn TranscriptsDisabled
                      (py "Subtitles are disabled for this video")) |}.

Definition video : str := py "dQw4w9WgXcQ".
End Samples.

(* ------------------------------------------------------------------------- *)
(** * The priority scans, as a relation *)
(* ------------------------------------------------------------------------- *)

Section Scans.
Context `{PyFloat}.

(** [scanned find langs searched o]: a loop of step 2 or 3 over [langs]
    with the search [find] asks for the languages [searched], one call
    each, and leaves [o]: the track it found, [None] when every search
    raised [NoTranscriptFound], or the other exception a search raised. *)
Inductive scanned (find : list str -> outcome YT.Transcript)
    : list str -> list str -> outcome (option YT.Transcript) -> Prop :=
| scanned_done : scanned find [] [] (Returns None)
| scanned_hit lang rest t :
    find [lang] = Returns t ->
    scanned find (lang :: rest) [lang] (Returns (Some t))
| scanned_miss lang rest e searched o :
    find [lang] = Raises e ->
    exn_class e = NoTranscriptFound ->
    scanned find rest searched o ->
    scanned find (lang :: rest) (lang :: searched) o
| scanned_fail lang rest e :
    find [lang] = Raises e ->
    exn_class e <> NoTranscriptFound ->
    scanned find (lang :: rest) [lang] (Raises e).

(** [selects tl langs cs sel]: steps 2 to 4 on the track list [tl] make
    the calls [cs] and leave [sel]: the chosen track with the value of
    [result["is_generated"]], [None] when no track is chosen, or the
    exception that ended the steps. *)
Inductive selects (tl : YT.TranscriptList) (langs : list str)
    : list call -> outcome (option (bool * YT.Transcript)) -> Prop :=
| selects_manual sm t :
    scanned (YT.find_manually_created_transcript tl) langs sm
      (Returns (Some t)) ->
    selects tl langs (map (fun l => FindManual [l]) sm)
      (Returns (Some (false, t)))
| selects_manual_raises sm e :
    scanned (YT.find_manually_created_transcript tl) langs sm (Raises e) ->
    selects tl langs (map (fun l => FindManual [l]) sm) (Raises e)
| selects_generated sm sg t :
    scanned (YT.find_manually_created_transcript tl) langs sm
      (Returns None) ->
    scanned (YT.find_generated_transcript tl) langs sg
      (Returns (Some t)) ->
    selects tl langs
      (map (fun l => FindManual [l]) sm
       ++ map (fun l => FindGenerated [l]) sg)
      (Returns (Some (true, t)))
| selects_generated_raises sm sg e :
    scanned (YT.find_manually_created_transcript tl) langs sm
      (Returns None) ->
    scanned (YT.find_generated_transcript tl) langs sg (Raises e) ->
    selects tl langs
      (map (fun l => FindManual [l]) sm
       ++ map (fun l => FindGenerated [l]) sg)
      (Raises e)
| selects_any sm sg :
    scanned (YT.find_manually_created_transcript tl) langs sm
      (Returns None) ->
    scanned (YT.find_generated_transcript tl) langs sg (Returns None) ->
    selects tl langs
      (map (fun l => FindManual [l]) sm
       ++ map (fun l => FindGenerated [l]) sg ++ [Iterate])
      (Returns
         match YT.iter tl with
         | YT.Yield t _ => Some (YT.is_generated t, t)
         | _ => None
         end).

(** The dictionary returned after a selection, and the call that downloads
    the chosen track. *)
Definition result_of_selection (video_id : str)
    (sel : outcome (option (bool * YT.Transcript))) : TranscriptResult :=
  match sel with
  | Returns (Some (generated, t)) => result_of_track video_id generated t
  | Returns None => failure_result video_id false msg_no_transcript
  | Raises e => failure_result video_id false (error_message e)
  end.

Definition fetch_of_selection
    (sel : outcome (option (bool * YT.Transcript))) : list call :=
  match sel with
  | Returns (Some (_, t)) => [Fetch (YT.language_code t)]
  | _ => []
  end.

(** The forms a returned dictionary has. *)
Inductive well_formed (video_id : str) : TranscriptResult -> Prop :=
| wf_failure generated msg :
    msg <> [] ->
    well_formed video_id (failure_result video_id generated msg)
| wf_unreadable generated t fetched msg :
    YT.fetch t = Returns fetched ->
    msg <> [] ->
    well_formed video_id (unreadable_result video_id generated t msg)
| wf_fetched generated t fetched segs :
    YT.fetch t = Returns fetched ->
    segments_of fetched = Returns segs ->
    well_formed video_id (fetched_result video_id generated t segs).

(** [result] after a scan that sets the flag to [generated] on a hit. *)
Definition flagged (generated : bool) (o : outcome (option YT.Transcript))
    (r : TranscriptResult) : TranscriptResult :=
  match o with
  | Returns (Some _) => set_is_generated generated r
  | _ => r
  end.
End Scans.

(* ------------------------------------------------------------------------- *)
(** * Kinds of calls *)
(* ------------------------------------------------------------------------- *)



(** A search that finds no track: it raises [NoTranscriptFound]. *)
Definition not_found `{PyFloat} (o : outcome YT.Transcript) : Prop :=
  exists e, o = Raises e /\ exn_class e = NoTranscriptFound.

(** A provider whose searches for a manual track all raise [e]. *)
Definition faulty_search `{PyFloat} (e : exn) : Provider :=
  {| list_transcripts := fun _ =>
       Returns
         {| YT.find_manually_created_transcript := fun _ => Raises e;
            YT.find_generated_transcript := find_transcript true [];
            YT.iter := YT.Stop |} |}.

(* ------------------------------------------------------------------------- *)
(** * Tactics *)
(* ------------------------------------------------------------------------- *)

Ltac calls_eq :=
  simpl; rewrite <- ?app_assoc, ?app_nil_r; simpl; reflexivity.

Ltac run_stmt :=
  unfold bind, ret, raise, get, modify, perform, try_except; simpl.

(* ------------------------------------------------------------------------- *)
(** * Strings: basic facts *)
(* ------------------------------------------------------------------------- *)

Lemma str_eqb_eq (a b : str) : str_eqb a b = true <-> a = b.
Proof.
  unfold str_eqb. destruct (list_eq_dec N.eq_dec a b); split; congruence.
Qed.

Lemma str_eqb_refl (a : str) : str_eqb a a = true.
Proof. now apply str_eqb_eq. Qed.

Lemma str_eqb_neq (a b : str) : str_eqb a b = false <-> a <> b.
Proof.
  unfold str_eqb. destruct (list_eq_dec N.eq_dec a b); split; congruence.
Qed.

Lemma isinstance_NoTranscriptFound (e : exn) :
  isinstance e NoTranscriptFound = true <-> exn_class e = NoTranscriptFound.
Proof. unfold isinstance. destruct (exn_class e); simpl; split; congruence. Qed.

(* ------------------------------------------------------------------------- *)
(** * The steps of [extract_transcript] *)
(* ------------------------------------------------------------------------- *)

Section Steps.
Context `{PyFloat}.

Lemma scan_manual_scanned (tl : YT.TranscriptList) (langs : list str) :
  forall s, exists searched o,
    scanned (YT.find_manually_created_transcript tl) langs searched o
    /\ scan_manual tl langs s
       = (o, {| locals := flagged false o (locals s);
                calls := calls s
                         ++ map (fun l => FindManual [l]) searched |}).
Proof.
  induction langs as [|lang rest IH]; intros s.
  - exists [], (Returns None). split; [constructor|].
    simpl. unfold ret. rewrite app_nil_r. now destruct s.
  - simpl. run_stmt.
    destruct (YT.find_manually_created_transcript tl [lang]) as [t|e] eqn:E.
    + exists [lang], (Returns (Some t)). split; [now constructor|reflexivity].
    + simpl. destruct (exn_class e) eqn:C; simpl;
        try (exists [lang], (Raises e);
             split; [eapply scanned_fail; eauto; congruence|reflexivity]).
      destruct (IH {| locals := locals s;
                      calls := calls s ++ [FindManual [lang]] |})
        as (searched & o & Hs & Heq).
      exists (lang :: searched), o. split; [now econstructor; eauto|].
      rewrite Heq. simpl. now rewrite <- app_assoc.
Qed.

Lemma scan_generated_scanned (tl : YT.TranscriptList) (langs : list str) :
  forall s, exists searched o,
    scanned (YT.find_generated_transcript tl) langs searched o
    /\ scan_generated tl langs s
       = (o, {| locals := flagged true o (locals s);
                calls := calls s
                         ++ map (fun l => FindGenerated [l]) searched |}).
Proof.
  induction langs as [|lang rest IH]; intros s.
  - exists [], (Returns None). split; [constructor|].
    simpl. unfold ret. rewrite app_nil_r. now destruct s.
  - simpl. run_stmt.
    destruct (YT.find_generated_transcript tl [lang]) as [t|e] eqn:E.
    + exists [lang], (Returns (Some t)). split; [now constructor|reflexivity].
    + simpl. destruct (exn_class e) eqn:C; simpl;
        try (exists [lang], (Raises e);
             split; [eapply scanned_fail; eauto; congruence|reflexivity]).
      destruct (IH {| locals := locals s;
                      calls := calls s ++ [FindGenerated [lang]] |})
        as (searched & o & Hs & Heq).
      exists (lang :: searched), o. split; [now econstructor; eauto|].
      rewrite Heq. simpl. now rewrite <- app_assoc.
Qed.
End Steps.

#[local] Arguments dispatch : simpl never.

Section Run.
Context `{PyFloat} `{!Provider}.

Lemma except_stores (e : exn) (s : frame TranscriptResult) :
  dispatch extract_transcript_except e s
  = (Returns tt, {| locals := set_error (Some (error_message e)) (locals s);
                    calls := calls s |}).
Proof.
  unfold extract_transcript_except, error_message, modify, dispatch,
    isinstance.
  destruct (exn_class e); reflexivity.
Qed.

Lemma run_listing_raises (video_id : str) (lp : option (list str)) e :
  list_transcripts video_id = Raises e ->
  run_extract_transcript video_id lp
  = (Returns (failure_result video_id false (error_message e)),
     {| locals := failure_result video_id false (error_message e);
        calls := [ListTranscripts video_id] |}).
Proof.
  intros E. unfold run_extract_transcript, extract_transcript_stmt,
    extract_transcript_try.
  run_stmt. rewrite E. rewrite except_stores. reflexivity.
Qed.
End Run.

Section Semantics.
Context `{PyFloat} `{!Provider}.

Lemma try_bind {L A B} (m : M L A) (k : A -> M L B) hs (s : frame L) :
  try_except (x <- m ;; k x) hs s
  = match m s with
    | (Returns a, s') => try_except (k a) hs s'
    | (Raises e, s') => dispatch hs e s'
    end.
Proof. unfold try_except, bind. now destruct (m s) as [[a|e] s']. Qed.

(** The texts read at line 101 are those of the segments built before. *)
Lemma texts_of_segments (fetched : list YT.Snippet) :
  forall segs,
    segments_of fetched = Returns segs ->
    texts_of fetched = Returns (map (fun seg => text seg) segs).
Proof.
  induction fetched as [|seg rest IH]; simpl; intros segs E.
  - injection E as <-. reflexivity.
  - unfold segment_of in E.
    destruct (YT.start seg); try discriminate.
    destruct (YT.duration seg); try discriminate.
    destruct (YT.text seg); try discriminate.
    destruct (segments_of rest) as [others|e]; try discriminate.
    injection E as <-. simpl. now rewrite (IH others eq_refl).
Qed.

(** Step 5 under the handlers, from the state the selection leaves. *)
Lemma try_fetch (video_id : str) (generated : bool) (t : YT.Transcript)
    (cs : list call) :
  try_except (fetch_into_result t) extract_transcript_except
    {| locals := set_is_generated generated (initial_result video_id);
       calls := cs |}
  = (Returns tt,
     {| locals := result_of_track video_id generated t;
        calls := cs ++ [Fetch (YT.language_code t)] |}).
Proof.
  unfold fetch_into_result, result_of_track. rewrite try_bind.
  unfold perform at 1. simpl.
  destruct (YT.fetch t) as [fetched|e]; [|now rewrite except_stores].
  rewrite try_bind. unfold modify at 1. cbn [locals calls].
  rewrite try_bind. unfold eval at 1.
  destruct (segments_of fetched) as [segs|e] eqn:S.
  - rewrite try_bind. unfold modify at 1. cbn [locals calls].
    rewrite try_bind. unfold eval at 1.
    rewrite (texts_of_segments fetched S). reflexivity.
  - now rewrite except_stores.
Qed.

Lemma try_returns (video_id : str) (langs : list str) tl :
  list_transcripts video_id = Returns tl ->
  exists cs sel,
    selects tl langs cs sel
    /\ try_except (extract_transcript_try video_id langs)
         extract_transcript_except
         {| locals := initial_result video_id; calls := [] |}
       = (Returns tt,
          {| locals := result_of_selection video_id sel;
             calls := ListTranscripts video_id
                      :: cs ++ fetch_of_selection sel |}).
Proof.
  intros E. unfold extract_transcript_try. rewrite try_bind.
  unfold perform at 1. simpl. rewrite E. rewrite try_bind.
  destruct (scan_manual_scanned tl langs
              {| locals := initial_result video_id;
                 calls := [ListTranscripts video_id] |})
    as (sm & om & Hm & Em).
  rewrite Em. simpl. destruct om as [[t|]|e]; simpl.
  - (* a manual track *)
    do 2 eexists. split; [apply selects_manual; eassumption|].
    do 2 (rewrite try_bind; unfold ret at 1; simpl).
    rewrite try_fetch. calls_eq.
  - (* no manual track: the generated ones *)
    rewrite try_bind.
    destruct (scan_generated_scanned tl langs
                {| locals := initial_result video_id;
                   calls := ListTranscripts video_id
                            :: map (fun l => FindManual [l]) sm |})
      as (sg & og & Hg & Eg).
    rewrite Eg. simpl. destruct og as [[t|]|e]; simpl.
    + do 2 eexists. split; [eapply selects_generated; eassumption|].
      rewrite try_bind; unfold ret at 1; simpl.
      rewrite try_fetch. calls_eq.
    + do 2 eexists. split; [eapply selects_any; eassumption|].
      rewrite try_bind. unfold any_transcript.
      unfold try_except at 1, bind at 1, perform at 1. simpl.
      destruct (YT.iter tl) as [|t rest|e]; simpl; try calls_eq.
      rewrite try_fetch. calls_eq.
    + do 2 eexists. split; [eapply selects_generated_raises; eassumption|].
      rewrite except_stores. calls_eq.
  - do 2 eexists. split; [eapply selects_manual_raises; eassumption|].
    rewrite except_stores. calls_eq.
Qed.

(** A call of [extract_transcript] on a video whose tracks can be listed:
    the dictionary and the calls are those of the selection. *)
Lemma run_listing_returns (video_id : str) (lp : option (list str)) tl :
  list_transcripts video_id = Returns tl ->
  exists cs sel,
    selects tl (default_priority lp) cs sel
    /\ run_extract_transcript video_id lp
       = (Returns (result_of_selection video_id sel),
          {| locals := result_of_selection video_id sel;
             calls := ListTranscripts video_id
                      :: cs ++ fetch_of_selection sel |}).
Proof.
  intros E.
  destruct (try_returns video_id (default_priority lp) E)
    as (cs & sel & Hsel & Heq).
  exists cs, sel. split; [assumption|].
  unfold run_extract_transcript, extract_transcript_stmt.
  unfold bind at 1. rewrite Heq. reflexivity.
Qed.

Lemma extract_listing_raises (video_id : str) (lp : option (list str)) e :
  list_transcripts video_id = Raises e ->
  extract_transcript video_id lp
  = Returns (failure_result video_id false (error_message e)).
Proof.
  intros E. unfold extract_transcript.
  now rewrite (run_listing_raises video_id lp E).
Qed.

Lemma extract_listing_returns (video_id : str) (lp : option (list str)) tl :
  list_transcripts video_id = Returns tl ->
  exists cs sel,
    selects tl (default_priority lp) cs sel
    /\ extract_transcript video_id lp
       = Returns (result_of_selection video_id sel).
Proof.
  intros E.
  destruct (run_listing_returns video_id lp E) as (cs & sel & Hsel & Heq).
  exists cs, sel. split; [assumption|].
  unfold extract_transcript. now rewrite Heq.
Qed.

Lemma error_message_nonempty (e : exn) : error_message e <> [].
Proof.
  unfold error_message. destruct (exn_class e); discriminate.
Qed.

Lemma result_of_track_well_formed (video_id : str) generated t :
  well_formed video_id (result_of_track video_id generated t).
Proof.
  unfold result_of_track. destruct (YT.fetch t) as [fetched|e] eqn:E.
  - destruct (segments_of fetched) as [segs|e] eqn:S.
    + now apply wf_fetched with (fetched := fetched).
    + apply wf_unreadable with (fetched := fetched); [exact E|].
      apply error_message_nonempty.
  - constructor. apply error_message_nonempty.
Qed.

Lemma result_of_selection_well_formed (video_id : str) sel :
  well_formed video_id (result_of_selection video_id sel).
Proof.
  destruct sel as [[[generated t]|]|e]; simpl.
  - apply result_of_track_well_formed.
  - constructor. discriminate.
  - constructor. apply error_message_nonempty.
Qed.

(** [extract_transcript] always returns, and what it returns has one of
    the two forms. *)
Lemma extract_transcript_well_formed (video_id : str)
    (lp : option (list str)) :
  exists r, extract_transcript video_id lp = Returns r
            /\ well_formed video_id r.
Proof.
  destruct (list_transcripts video_id) as [tl|e] eqn:E.
  - destruct (extract_listing_returns video_id lp E)
      as (cs & sel & _ & Heq).
    eexists. split; [eassumption|].
    apply result_of_selection_well_formed.
  - eexists. split; [apply (extract_listing_raises video_id lp E)|].
    constructor. apply error_message_nonempty.
Qed.
End Semantics.

(* ------------------------------------------------------------------------- *)
(** * Scans over the tracks of a video *)
(* ------------------------------------------------------------------------- *)

Section ScanTracks.
Context `{PyFloat}.

Lemma has_track_true generated (tracks : list YT.Transcript) t :
  In t tracks -> YT.is_generated t = generated ->
  has_track generated tracks (YT.language_code t) = true.
Proof.
  intros Hin Hg. unfold has_track. apply existsb_exists.
  exists t. split; [assumption|].
  rewrite Hg, eqb_reflx, str_eqb_refl. reflexivity.
Qed.

(** With the library's guarantees a scan never raises; it finds a track of
    the first language of the list that has one of the kind. *)
Lemma scanned_tracks generated (tracks : list YT.Transcript) find :
  (forall lang, finds generated tracks lang (find [lang])) ->
  forall langs searched o,
    scanned find langs searched o ->
    match o with
    | Returns (Some t) =>
      In t tracks /\ YT.is_generated t = generated
      /\ List.find (has_track generated tracks) langs
         = Some (YT.language_code t)
    | Returns None => List.find (has_track generated tracks) langs = None
    | Raises _ => False
    end.
Proof.
  intros Hfind langs searched o Hs.
  induction Hs as [|lang rest t E|lang rest e searched o E C Hs IH
                   |lang rest e E C].
  - reflexivity.
  - pose proof (Hfind lang) as F. rewrite E in F.
    destruct F as (Hin & Hg & Hl). repeat split; try assumption.
    simpl. subst lang. now rewrite (has_track_true tracks t Hin Hg).
  - pose proof (Hfind lang) as F. rewrite E in F. destruct F as (_ & Hno).
    simpl. rewrite Hno. exact IH.
  - pose proof (Hfind lang) as F. rewrite E in F. destruct F as (Hc & _).
    congruence.
Qed.

Lemma no_track_of_language generated (tracks : list YT.Transcript) lang :
  Forall (fun t => YT.language_code t <> lang) tracks ->
  has_track generated tracks lang = false.
Proof.
  intros Hall. unfold has_track.
  apply not_true_is_false. intros Hex.
  apply existsb_exists in Hex. destruct Hex as (t & Hin & Ht).
  apply andb_true_iff in Ht. destruct Ht as (_ & Ht).
  apply str_eqb_eq in Ht.
  rewrite Forall_forall in Hall. now apply (Hall t Hin).
Qed.

Lemma find_none_iff {A} (p : A -> bool) (l : list A) :
  List.find p l = None <-> forall x, In x l -> p x = false.
Proof.
  split.
  - apply find_none.
  - induction l as [|a l IH]; intros Hall; [reflexivity|].
    simpl. rewrite (Hall a (or_introl eq_refl)).
    apply IH. intros x Hx. apply Hall. now right.
Qed.

(** The transcript list built from [tracks] keeps the guarantees. *)
Lemma find_transcript_finds generated (tracks : list YT.Transcript) lang :
  finds generated tracks lang (find_transcript generated tracks [lang]).
Proof.
  unfold find_transcript, finds.
  destruct (List.find _ tracks) as [t|] eqn:E.
  - apply find_some in E. destruct E as (Hin & Ht).
    apply andb_true_iff in Ht. destruct Ht as (Hg & Hl).
    apply eqb_prop in Hg. apply str_eqb_eq in Hl. auto.
  - split; [reflexivity|].
    unfold has_track. apply not_true_is_false. intros Hex.
    apply existsb_exists in Hex. destruct Hex as (t & Hin & Ht).
    pose proof (find_none _ _ E t Hin) as Hn. simpl in Hn. congruence.
Qed.

Lemma transcript_list_of_lists_tracks (tracks : list YT.Transcript) :
  lists_tracks (transcript_list_of tracks) tracks.
Proof.
  constructor; simpl.
  - reflexivity.
  - intros lang. apply find_transcript_finds.
  - intros lang. apply find_transcript_finds.
Qed.
End ScanTracks.

Section Selection.
Context `{PyFloat}.

(** The selection policy on a video whose tracks are [tracks]: a manual
    track of the first priority language that has one; failing that, a
    generated track of the first priority language that has one; failing
    that, the first track listed; none when there is no track. *)
Lemma selects_tracks (tl : YT.TranscriptList) (tracks : list YT.Transcript)
    (langs : list str) cs sel :
  lists_tracks tl tracks ->
  selects tl langs cs sel ->
  match sel with
  | Returns (Some (generated, t)) =>
    In t tracks /\ YT.is_generated t = generated
    /\ ((generated = false
         /\ List.find (has_track false tracks) langs
            = Some (YT.language_code t))
        \/ (generated = true
            /\ List.find (has_track false tracks) langs = None
            /\ List.find (has_track true tracks) langs
               = Some (YT.language_code t))
        \/ (List.find (has_track false tracks) langs = None
            /\ List.find (has_track true tracks) langs = None
            /\ exists rest, tracks = t :: rest))
  | Returns None =>
    tracks = []
  | Raises _ => False
  end.
Proof.
  intros [Hiter Hman Hgen] Hsel.
  destruct Hsel as [sm t Hm|sm e Hm|sm sg t Hm Hg|sm sg e Hm Hg|sm sg Hm Hg].
  - apply (scanned_tracks false tracks Hman) in Hm. destruct Hm as (Hin & Hg & Hf).
    auto.
  - now apply (scanned_tracks false tracks Hman) in Hm.
  - apply (scanned_tracks false tracks Hman) in Hm.
    apply (scanned_tracks true tracks Hgen) in Hg. destruct Hg as (Hin & Hg & Hf).
    repeat split; try assumption. right. left. auto.
  - now apply (scanned_tracks true tracks Hgen) in Hg.
  - apply (scanned_tracks false tracks Hman) in Hm.
    apply (scanned_tracks true tracks Hgen) in Hg.
    rewrite Hiter. destruct tracks as [|t rest]; simpl; [reflexivity|].
    repeat split; eauto. right. right. eauto.
Qed.

Lemma is_generated_result_of_track (video_id : str) generated t :
  is_generated (result_of_track video_id generated t) = generated.
Proof.
  unfold result_of_track.
  destruct (YT.fetch t) as [fetched|e]; [|reflexivity].
  now destruct (segments_of fetched).
Qed.

(** [success] is true when the download returned and every entry could be
    read, and only then. *)
Lemma success_result_of_track (video_id : str) generated t :
  success (result_of_track video_id generated t) = true
  <-> exists fetched segs,
        YT.fetch t = Returns fetched /\ segments_of fetched = Returns segs.
Proof.
  unfold result_of_track. destruct (YT.fetch t) as [fetched|e]; simpl.
  - destruct (segments_of fetched) as [segs|e] eqn:S; simpl.
    + split; eauto.
    + split; [discriminate|]. intros (f & segs & E & S').
      injection E as <-. congruence.
  - split; [discriminate|]. intros (f & segs & E & _). discriminate.
Qed.
End Selection.

(* ------------------------------------------------------------------------- *)
(** * Selection of a track *)
(* ------------------------------------------------------------------------- *)

Section SelectionClaims.
Context `{PyFloat} `{!Provider}.

(** C1.  When the tracks of a video include a manually created track in a
    language of the priority list, [extract_transcript] chooses a manually
    created track whose language is the first language of the priority list
    that has a manual track, and the dictionary it returns is the one of
    that track with [is_generated] false; a generated track in the same
    language does not change this. *)
Theorem manual_track_preferred (video_id : str) (lang_priority : option (list str))
    (tl : YT.TranscriptList) (tracks : list YT.Transcript) :
  list_transcripts video_id = Returns tl ->
  lists_tracks tl tracks ->
  (exists lang, In lang (default_priority lang_priority)
                /\ has_track false tracks lang = true) ->
  exists t r,
    In t tracks
    /\ YT.is_generated t = false
    /\ List.find (has_track false tracks) (default_priority lang_priority)
       = Some (YT.language_code t)
    /\ extract_transcript video_id lang_priority = Returns r
    /\ r = result_of_track video_id false t
    /\ is_generated r = false.
Proof.
  intros E Htl (lang & Hin & Hhas).
  destruct (extract_listing_returns video_id lang_priority E)
    as (cs & sel & Hsel & Heq).
  pose proof (selects_tracks Htl Hsel) as Hs.
  destruct sel as [[[generated t]|]|e]; simpl in *.
  - destruct Hs as (Ht & Hg & [(G & Hf)|[(G & Hn & _)|(Hn & _)]]).
    + rewrite G in Heq, Hg. exists t, (result_of_track video_id false t).
      repeat split; try assumption.
      apply is_generated_result_of_track.
    + rewrite (find_none _ _ Hn lang Hin) in Hhas. discriminate.
    + rewrite (find_none _ _ Hn lang Hin) in Hhas. discriminate.
  - subst tracks. discriminate.
  - contradiction.
Qed.

(** C2, as the code has it.  When a video has tracks but none in a language
    of the priority list, [extract_transcript] falls back to the first track
    the library lists, and the [is_generated] of the dictionary is that
    track's own flag.  [success] is true when the download of that track
    returns and lines 93-101 raise nothing while its entries are read, and
    only then; otherwise the dictionary has [success] false and an error
    message. *)
Theorem fallback_first_listed (video_id : str) (lang_priority : option (list str))
    (tl : YT.TranscriptList) (first : YT.Transcript)
    (others : list YT.Transcript) :
  list_transcripts video_id = Returns tl ->
  lists_tracks tl (first :: others) ->
  Forall (fun t => ~ In (YT.language_code t) (default_priority lang_priority))
    (first :: others) ->
  exists r,
    extract_transcript video_id lang_priority = Returns r
    /\ r = result_of_track video_id (YT.is_generated first) first
    /\ is_generated r = YT.is_generated first
    /\ (success r = true
        <-> exists fetched segs,
              YT.fetch first = Returns fetched
              /\ segments_of fetched = Returns segs)
    /\ (success r = false -> exists msg, error r = Some msg /\ msg <> []).
Proof.
  intros E Htl Hnone.
  assert (Hno : forall generated,
             List.find (has_track generated (first :: others))
               (default_priority lang_priority) = None).
  { intros generated. apply find_none_iff. intros lang Hin.
    apply no_track_of_language.
    eapply Forall_impl; [|exact Hnone]. simpl. intros t Ht C.
    apply Ht. now rewrite C. }
  destruct (extract_listing_returns video_id lang_priority E)
    as (cs & sel & Hsel & Heq).
  pose proof (selects_tracks Htl Hsel) as Hs.
  destruct sel as [[[generated t]|]|e]; simpl in *.
  - destruct Hs as (Ht & Hg & [(G & Hf)|[(G & _ & Hf)|(_ & _ & rest & Hr)]]).
    + rewrite Hno in Hf. discriminate.
    + rewrite Hno in Hf. discriminate.
    + injection Hr as <- <-. rewrite <- Hg in Heq.
      eexists. split; [exact Heq|]. split; [reflexivity|].
      split; [apply is_generated_result_of_track|].
      split; [apply success_result_of_track|].
      pose proof (result_of_track_well_formed video_id
                    (YT.is_generated first) first) as Hwf.
      destruct Hwf as [g msg Hmsg|g t fetched msg Hf Hmsg
                       |g t fetched segs Hf Hsegs]; simpl; eauto.
      discriminate.
  - discriminate.
  - contradiction.
Qed.

(** C7.  For a video with no track at all (the library lists none and
    raises nothing but its not-found signal), the dictionary has [success]
    false, a non-empty error message and no segments. *)
Theorem no_tracks_reported (video_id : str) (lang_priority : option (list str))
    (tl : YT.TranscriptList) :
  list_transcripts video_id = Returns tl ->
  lists_tracks tl [] ->
  exists r msg,
    extract_transcript video_id lang_priority = Returns r
    /\ success r = false
    /\ error r = Some msg /\ msg <> []
    /\ segments r = [].
Proof.
  intros E Htl.
  destruct (extract_listing_returns video_id lang_priority E)
    as (cs & sel & Hsel & Heq).
  pose proof (selects_tracks Htl Hsel) as Hs.
  destruct sel as [[[generated t]|]|e]; simpl in *.
  - destruct Hs as (Ht & _). contradiction.
  - exists (failure_result video_id false msg_no_transcript), msg_no_transcript.
    repeat split; try assumption. discriminate.
  - contradiction.
Qed.

End SelectionClaims.

(** A video with a generated and a manual English track, default priority:
    the manual one is fetched. *)
Lemma manual_track_preferred_witness :
  let tracks := [Samples.en_generated; Samples.en_manual] in
  has_track false tracks (py "en") = true
  /\ exists t r,
       In t tracks
       /\ YT.is_generated t = false
       /\ List.find (has_track false tracks) (default_priority None)
          = Some (YT.language_code t)
       /\ @extract_transcript _ (Samples.serving tracks) Samples.video None
          = Returns r
       /\ r = result_of_track Samples.video false t
       /\ is_generated r = false.
Proof.
  split; [reflexivity|].
  apply (@manual_track_preferred centiseconds
           (Samples.serving [Samples.en_generated; Samples.en_manual])
           Samples.video None
           (transcript_list_of [Samples.en_generated; Samples.en_manual])).
  - reflexivity.
  - apply transcript_list_of_lists_tracks.
  - exists (py "en"). split; [right; left; reflexivity|reflexivity].
Defined.

(** C2 as stated fails: a video whose only track is French and cannot be
    downloaded has a track, has none in a priority language, and the
    dictionary returned for it has [success] false. *)
Lemma fallback_download_can_fail :
  let tracks := [Samples.fr_blocked] in
  @list_transcripts _ (Samples.serving tracks) Samples.video
  = Returns (transcript_list_of tracks)
  /\ lists_tracks (transcript_list_of tracks) tracks
  /\ Forall (fun t => ~ In (YT.language_code t) (default_priority None))
       tracks
  /\ exists r,
       @extract_transcript _ (Samples.serving tracks) Samples.video None
       = Returns r
       /\ success r = false
       /\ is_generated r = YT.is_generated Samples.fr_blocked.
Proof.
  simpl. split; [reflexivity|].
  split; [apply transcript_list_of_lists_tracks|].
  split.
  - constructor; [|constructor].
    simpl. intros [C|[C|[]]]; discriminate C.
  - eexists. split; [reflexivity|]. split; reflexivity.
Qed.

(** A video whose only track is a generated French one, default priority. *)
Lemma fallback_first_listed_witness :
  Forall (fun t => ~ In (YT.language_code t) (default_priority None))
    [Samples.fr_generated]
  /\ exists r,
       @extract_transcript _ (Samples.serving [Samples.fr_generated])
         Samples.video None = Returns r
       /\ r = result_of_track Samples.video true Samples.fr_generated
       /\ is_generated r = true
       /\ (success r = true
           <-> exists fetched segs,
                 YT.fetch Samples.fr_generated = Returns fetched
                 /\ segments_of fetched = Returns segs)
       /\ (success r = false -> exists msg, error r = Some msg /\ msg <> []).
Proof.
  assert (Hnone : Forall
            (fun t => ~ In (YT.language_code t) (default_priority None))
            [Samples.fr_generated]).
  { constructor; [|constructor].
    simpl. intros [C|[C|[]]]; discriminate C. }
  split; [exact Hnone|].
  apply (@fallback_first_listed centiseconds
           (Samples.serving [Samples.fr_generated]) Samples.video None
           (transcript_list_of [Samples.fr_generated])
           Samples.fr_generated []).
  - reflexivity.
  - apply transcript_list_of_lists_tracks.
  - exact Hnone.
Defined.

(** A video with no track. *)
Lemma no_tracks_reported_witness :
  exists r msg,
    @extract_transcript _ (Samples.serving []) Samples.video None = Returns r
    /\ success r = false
    /\ error r = Some msg /\ msg <> []
    /\ segments r = [].
Proof.
  apply (@no_tracks_reported centiseconds (Samples.serving []) Samples.video
           None (transcript_list_of [])).
  - reflexivity.
  - apply transcript_list_of_lists_tracks.
Defined.

(* ------------------------------------------------------------------------- *)
(** * The returned dictionary *)
(* ------------------------------------------------------------------------- *)

Section ResultClaims.
Context `{PyFloat} `{!Provider}.

(** C3.  In every dictionary returned with [success] true, [full_text] is
    the texts of [segments], in order, joined by a newline. *)
Theorem full_text_joins_segments (video_id : str)
    (lang_priority : option (list str)) (r : TranscriptResult) :
  extract_transcript video_id lang_priority = Returns r ->
  success r = true ->
  full_text r = join newline (map (fun seg => text seg) (segments r)).
Proof.
  intros E Hs.
  destruct (extract_transcript_well_formed video_id lang_priority)
    as (r' & E' & Hwf).
  rewrite E in E'. injection E' as <-.
  destruct Hwf as [generated msg Hmsg|generated t fetched msg Hf Hmsg
                   |generated t fetched segs Hf Hsegs].
  - discriminate Hs.
  - discriminate Hs.
  - reflexivity.
Qed.

(** C4.  [extract_transcript] returns a dictionary in which [error] is
    [None] when [success] is true, and in which [segments] is empty and
    [error] holds a message when [success] is false; [error] and [segments]
    are never both filled. *)
Theorem error_or_segments (video_id : str) (lang_priority : option (list str)) :
  exists r,
    extract_transcript video_id lang_priority = Returns r
    /\ (success r = true -> error r = None)
    /\ (success r = false ->
        segments r = [] /\ exists msg, error r = Some msg /\ msg <> [])
    /\ (error r = None \/ segments r = []).
Proof.
  destruct (extract_transcript_well_formed video_id lang_priority)
    as (r & E & Hwf).
  exists r. split; [exact E|].
  destruct Hwf as [generated msg Hmsg|generated t fetched msg Hf Hmsg
                   |generated t fetched segs Hf Hsegs]; simpl.
  - split; [discriminate|]. split; [|now right].
    intros _. split; [reflexivity|]. now exists msg.
  - split; [discriminate|]. split; [|now right].
    intros _. split; [reflexivity|]. now exists msg.
  - split; [reflexivity|]. split; [discriminate|now left].
Qed.

(** C6.  When listing the tracks fails because captions are disabled, the
    video is unavailable, or no transcript exists, the dictionary has
    [success] false and the message of that case; two different cases give
    two different messages. *)
Theorem listing_failures_distinguished
    (video1 video2 : str) (lang_priority1 lang_priority2 : option (list str))
    (e1 e2 : exn) :
  list_transcripts video1 = Raises e1 ->
  list_transcripts video2 = Raises e2 ->
  recognized (exn_class e1) = true ->
  recognized (exn_class e2) = true ->
  exists r1 r2 msg1 msg2,
    extract_transcript video1 lang_priority1 = Returns r1
    /\ extract_transcript video2 lang_priority2 = Returns r2
    /\ success r1 = false /\ success r2 = false
    /\ segments r1 = [] /\ segments r2 = []
    /\ error r1 = Some msg1 /\ error r2 = Some msg2
    /\ msg1 = error_message e1 /\ msg2 = error_message e2
    /\ msg1 <> [] /\ msg2 <> []
    /\ (exn_class e1 <> exn_class e2 -> msg1 <> msg2).
Proof.
  intros E1 E2 R1 R2.
  exists (failure_result video1 false (error_message e1)),
         (failure_result video2 false (error_message e2)),
         (error_message e1), (error_message e2).
  rewrite (extract_listing_raises video1 lang_priority1 E1).
  rewrite (extract_listing_raises video2 lang_priority2 E2).
  repeat split; try apply error_message_nonempty.
  unfold error_message.
  destruct (exn_class e1), (exn_class e2);
    try discriminate R1; try discriminate R2;
    intros D; try (exfalso; apply D; reflexivity); discriminate.
Qed.

End ResultClaims.

(** A video with a manual English track of two entries. *)
Lemma full_text_joins_segments_witness :
  let r := fetched_result Samples.video false Samples.en_manual
             Samples.hello_segments in
  success r = true
  /\ full_text r = py "hello" ++ newline ++ py "world"
  /\ full_text r = join newline (map (fun seg => text seg) (segments r)).
Proof.
  split; [reflexivity|]. split; [reflexivity|].
  apply (@full_text_joins_segments centiseconds
           (Samples.serving [Samples.en_manual]) Samples.video None);
    reflexivity.
Defined.

(** A video whose only track cannot be downloaded: [success] is false,
    there is no segment, and [error] holds a message. *)
Lemma error_or_segments_witness :
  exists r,
    @extract_transcript _ (Samples.serving [Samples.fr_blocked])
      Samples.video None = Returns r
    /\ (success r = true -> error r = None)
    /\ (success r = false ->
        segments r = [] /\ exists msg, error r = Some msg /\ msg <> [])
    /\ (error r = None \/ segments r = []).
Proof.
  exact (@error_or_segments centiseconds
           (Samples.serving [Samples.fr_blocked]) Samples.video None).
Defined.

(** A video that does not exist and one whose captions are disabled. *)
Lemma listing_failures_distinguished_witness :
  let e1 := Exn VideoUnavailable (py "The video is no longer available") in
  let e2 := Exn TranscriptsDisabled
              (py "Subtitles are disabled for this video") in
  exists r1 r2 msg1 msg2,
    @extract_transcript _ Samples.unavailable_or_disabled (py "invalid_id")
      (Some [py "ko"; py "en"]) = Returns r1
    /\ @extract_transcript _ Samples.unavailable_or_disabled Samples.video
         None = Returns r2
    /\ success r1 = false /\ success r2 = false
    /\ segments r1 = [] /\ segments r2 = []
    /\ error r1 = Some msg1 /\ error r2 = Some msg2
    /\ msg1 = error_message e1 /\ msg2 = error_message e2
    /\ msg1 <> [] /\ msg2 <> []
    /\ (exn_class e1 <> exn_class e2 -> msg1 <> msg2).
Proof.
  intros e1 e2.
  apply (@listing_failures_distinguished centiseconds
           Samples.unavailable_or_disabled (py "invalid_id") Samples.video
           (Some [py "ko"; py "en"]) None e1 e2);
    vm_compute; reflexivity.
Defined.

(* ------------------------------------------------------------------------- *)
(** * Scans have one outcome *)
(* ------------------------------------------------------------------------- *)

Section ScanFacts.
Context `{PyFloat}.

(** A scan has one outcome. *)
Lemma scanned_functional find (langs : list str) sm1 o1 :
  scanned find langs sm1 o1 ->
  forall sm2 o2, scanned find langs sm2 o2 -> sm1 = sm2 /\ o1 = o2.
Proof.
  induction 1 as [|lang rest t E|lang rest e searched o E C Hs IH
                  |lang rest e E C];
    intros sm2 o2 H2; inversion H2; subst; try congruence; auto.
  - split; congruence.
  - destruct (IH _ _ ltac:(eassumption)) as (-> & ->). auto.
  - split; congruence.
Qed.


Lemma selects_functional (tl : YT.TranscriptList) (langs : list str)
    cs1 sel1 cs2 sel2 :
  selects tl langs cs1 sel1 -> selects tl langs cs2 sel2 ->
  cs1 = cs2 /\ sel1 = sel2.
Proof.
  intros H1 H2.
  destruct H1 as [sm t Hm|sm e Hm|sm sg t Hm Hg|sm sg e Hm Hg|sm sg Hm Hg];
    destruct H2 as [sm' t' Hm'|sm' e' Hm'|sm' sg' t' Hm' Hg'
                    |sm' sg' e' Hm' Hg'|sm' sg' Hm' Hg'];
    destruct (scanned_functional Hm Hm') as (Em & Eo);
    try discriminate Eo;
    try (destruct (scanned_functional Hg Hg') as (Eg & Eo');
         try discriminate Eo');
    subst; split; congruence.
Qed.

End ScanFacts.

Section Unfound.
Context `{PyFloat}.

(** A scan in which every search finds nothing leaves no track. *)
Lemma scanned_nothing (find : list str -> outcome YT.Transcript)
    (langs : list str) :
  (forall lang, In lang langs -> not_found (find [lang])) ->
  scanned find langs langs (Returns None).
Proof.
  induction langs as [|lang rest IH]; intros Hall; [constructor|].
  destruct (Hall lang (or_introl eq_refl)) as (e & E & C).
  eapply scanned_miss; eauto.
  apply IH. intros l Hl. apply Hall. now right.
Qed.
End Unfound.

(* ------------------------------------------------------------------------- *)
(** * Failures *)
(* ------------------------------------------------------------------------- *)

Section FailureClaims.
Context `{PyFloat} `{!Provider}.

(** C5, as the code has it.  [extract_transcript] always returns a
    dictionary and never raises.  An exception that leaves the [try] block
    (raised by the listing of the tracks, by a search, other than its
    not-found signal, or by the download) and is not one of the three
    recognized classes gives [success] false and the prefixed description of
    the exception as [error].  An exception of any class raised while the
    track list is iterated in step 4 is dropped: no track is chosen, and the
    dictionary returned has [success] false and the no-transcript message,
    in which the exception is not described. *)
Theorem never_raises (video_id : str) (lang_priority : option (list str)) :
  (exists r, extract_transcript video_id lang_priority = Returns r)
  /\ (forall e s,
        extract_transcript_try video_id (default_priority lang_priority)
          {| locals := initial_result video_id; calls := [] |}
        = (Raises e, s) ->
        recognized (exn_class e) = false ->
        exists r,
          extract_transcript video_id lang_priority = Returns r
          /\ success r = false
          /\ segments r = []
          /\ error r = Some (msg_failure_prefix ++ exn_str e))
  /\ (forall e,
        list_transcripts video_id = Raises e ->
        recognized (exn_class e) = false ->
        extract_transcript video_id lang_priority
        = Returns (failure_result video_id false
                     (msg_failure_prefix ++ exn_str e)))
  /\ (forall tl e s,
        YT.iter tl = YT.Broken e ->
        any_transcript tl s
        = (Returns None,
           {| locals := locals s; calls := calls s ++ [Iterate] |}))
  /\ (forall tl e,
        list_transcripts video_id = Returns tl ->
        (forall lang,
            In lang (default_priority lang_priority) ->
            not_found (YT.find_manually_created_transcript tl [lang])
            /\ not_found (YT.find_generated_transcript tl [lang])) ->
        YT.iter tl = YT.Broken e ->
        extract_transcript video_id lang_priority
        = Returns (failure_result video_id false msg_no_transcript)).
Proof.
  split; [|split; [|split; [|split]]].
  - destruct (extract_transcript_well_formed video_id lang_priority)
      as (r & E & _).
    now exists r.
  - intros e s Htry Hrec.
    destruct (extract_transcript_well_formed video_id lang_priority)
      as (r & E & Hwf).
    exists r. split; [exact E|].
    assert (Herr : error r = Some (msg_failure_prefix ++ exn_str e)).
    { revert E. unfold extract_transcript, run_extract_transcript,
        extract_transcript_stmt.
      unfold bind at 1, try_except at 1. rewrite Htry, except_stores.
      simpl. intros E. injection E as <-. simpl.
      unfold error_message.
      destruct (exn_class e); try discriminate Hrec; reflexivity. }
    destruct Hwf as [generated msg Hmsg|generated t fetched msg Hf Hmsg
                     |generated t fetched segs Hf Hsegs].
    + repeat split. exact Herr.
    + repeat split. exact Herr.
    + discriminate Herr.
  - intros e E Hrec.
    rewrite (extract_listing_raises video_id lang_priority E).
    unfold error_message.
    destruct (exn_class e); try discriminate Hrec; reflexivity.
  - intros tl e s E. unfold any_transcript. run_stmt. rewrite E.
    reflexivity.
  - intros tl e E Hnone Hit.
    destruct (extract_listing_returns video_id lang_priority E)
      as (cs & sel & Hsel & Heq).
    assert (Hany : selects tl (default_priority lang_priority)
                     (map (fun l => FindManual [l])
                        (default_priority lang_priority)
                      ++ map (fun l => FindGenerated [l])
                           (default_priority lang_priority)
                      ++ [Iterate])
                     (Returns None)).
    { replace (@Returns (option (bool * YT.Transcript)) None)
        with (@Returns (option (bool * YT.Transcript))
                match YT.iter tl with
                | YT.Yield t _ => Some (YT.is_generated t, t)
                | _ => None
                end) by now rewrite Hit.
      apply selects_any; apply scanned_nothing; intros lang Hl;
        now destruct (Hnone lang Hl). }
    destruct (selects_functional Hsel Hany) as (_ & ->).
    exact Heq.
Qed.

End FailureClaims.

(** C5 as stated fails: every search finds nothing, the iteration of the
    track list raises an unrecognized exception, and the message of the
    dictionary does not contain the description of that exception. *)
Lemma iteration_failure_not_described :
  let e := Exn Exception_ (py "boom") in
  recognized (exn_class e) = false
  /\ (exists tl,
        @list_transcripts _ (Samples.unlistable e) Samples.video = Returns tl
        /\ YT.iter tl = YT.Broken e)
  /\ exists r msg,
       @extract_transcript _ (Samples.unlistable e) Samples.video None
       = Returns r
       /\ success r = false
       /\ error r = Some msg
       /\ msg = msg_no_transcript
       /\ contains msg (exn_str e) = false.
Proof.
  simpl. split; [reflexivity|]. split.
  - eexists. split; reflexivity.
  - do 2 eexists. repeat split.
Qed.

(** A video whose only track cannot be downloaded: the exception leaves the
    [try] block and its description is reported.  A video whose track list
    cannot be iterated: the no-transcript message is reported. *)
Lemma never_raises_witness :
  let e := Exn Exception_ (py "connection reset") in
  let boom := Exn Exception_ (py "boom") in
  recognized (exn_class e) = false
  /\ (exists r,
        @extract_transcript _ (Samples.serving [Samples.fr_blocked])
          Samples.video None = Returns r
        /\ success r = false
        /\ segments r = []
        /\ error r = Some (msg_failure_prefix ++ exn_str e))
  /\ @extract_transcript _ (Samples.unlistable boom) Samples.video None
     = Returns (failure_result Samples.video false msg_no_transcript).
Proof.
  intros e boom. split; [reflexivity|]. split.
  - refine (proj1 (proj2 (@never_raises centiseconds
                            (Samples.serving [Samples.fr_blocked])
                            Samples.video None)) _ _ _ _).
    + reflexivity.
    + reflexivity.
  - refine (proj2 (proj2 (proj2 (proj2
              (@never_raises centiseconds (Samples.unlistable boom)
                 Samples.video None)))) _ boom _ _ _).
    + reflexivity.
    + intros lang _. split; eexists; split; reflexivity.
    + reflexivity.
Defined.

(* ------------------------------------------------------------------------- *)
(** * [split] and [strip] *)
(* ------------------------------------------------------------------------- *)

Lemma split_nonempty (sep : codepoint) (s : str) : split sep s <> [].
Proof.
  destruct s as [|c rest]; simpl; [discriminate|].
  destruct (c =? sep)%N; [discriminate|].
  destruct (split sep rest); discriminate.
Qed.

(** The pieces of [split], joined by the separator, give the string back. *)
Lemma split_join (sep : codepoint) (s : str) :
  join [sep] (split sep s) = s.
Proof.
  induction s as [|c rest IH]; [reflexivity|].
  simpl. destruct (c =? sep)%N eqn:C.
  - apply N.eqb_eq in C. subst c.
    pose proof (split_nonempty sep rest) as Hne.
    simpl. destruct (split sep rest) as [|tok toks]; [contradiction|].
    now rewrite IH.
  - pose proof (split_nonempty sep rest) as Hne.
    destruct (split sep rest) as [|tok toks]; [contradiction|].
    simpl in IH |- *. destruct toks; simpl; now rewrite <- IH.
Qed.

(** No piece of [split] holds the separator. *)
Lemma split_no_separator (sep : codepoint) (s : str) :
  Forall (fun tok => ~ In sep tok) (split sep s).
Proof.
  induction s as [|c rest IH]; simpl.
  - constructor; [intros []|constructor].
  - destruct (c =? sep)%N eqn:C.
    + constructor; [intros []|exact IH].
    + apply N.eqb_neq in C.
      destruct (split sep rest) as [|tok toks]; simpl.
      * constructor; [|constructor]. intros [E|[]]. congruence.
      * inversion IH as [|? ? Htok Htoks]; subst.
        constructor; [|exact Htoks]. intros [E|Hin]; [congruence|auto].
Qed.

Lemma lstrip_decomp (s : str) :
  exists pre, s = pre ++ lstrip s /\ forallb isspace pre = true.
Proof.
  induction s as [|c rest (pre & E & Hpre)]; simpl.
  - now exists [].
  - destruct (isspace c) eqn:C.
    + exists (c :: pre). simpl. rewrite C, Hpre. split; [congruence|reflexivity].
    + now exists [].
Qed.

Lemma lstrip_head (s : str) c rest :
  lstrip s = c :: rest -> isspace c = false.
Proof.
  induction s as [|a s IH]; simpl; [discriminate|].
  destruct (isspace a) eqn:A; [exact IH|].
  intros E. injection E as <- _. exact A.
Qed.

Lemma lstrip_spaces (s : str) :
  forallb isspace s = true -> lstrip s = [].
Proof.
  induction s as [|c rest IH]; simpl; [reflexivity|].
  intros Hs. apply andb_true_iff in Hs. destruct Hs as (C & Hs).
  rewrite C. now apply IH.
Qed.

(** [lstrip] keeps what follows a character that is not a space. *)
Lemma lstrip_app_keep (a : str) c (b : str) :
  isspace c = false ->
  exists a', lstrip (a ++ c :: b) = a' ++ c :: b.
Proof.
  intros C. induction a as [|x a (a' & IH)]; simpl.
  - rewrite C. now exists [].
  - destruct (isspace x); [now exists a'|now exists (x :: a)].
Qed.

Lemma forallb_rev {A} (p : A -> bool) (l : list A) :
  forallb p (rev l) = forallb p l.
Proof.
  induction l as [|a l IH]; simpl; [reflexivity|].
  rewrite forallb_app, IH. simpl. rewrite andb_true_r. apply andb_comm.
Qed.

Lemma trimmed_ends c (mid : str) d :
  isspace c = false -> isspace d = false ->
  trimmed (c :: mid ++ [d]) = true.
Proof.
  intros C D. unfold trimmed. rewrite C.
  change (c :: mid ++ [d]) with ((c :: mid) ++ [d]).
  rewrite last_last, D. reflexivity.
Qed.

(** [strip] removes a run of spaces at each end, and what it leaves has a
    space at neither end. *)
Lemma strip_decomp (s : str) :
  exists pre post,
    s = pre ++ strip s ++ post
    /\ forallb isspace pre = true
    /\ forallb isspace post = true
    /\ trimmed (strip s) = true.
Proof.
  unfold strip, rstrip.
  destruct (lstrip_decomp s) as (pre & Es & Hpre).
  destruct (lstrip_decomp (rev (lstrip s))) as (tsop & Er & Hpost).
  exists pre, (rev tsop). split; [|split; [exact Hpre|split]].
  - rewrite Es at 1. f_equal.
    rewrite <- (rev_involutive (lstrip s)) at 1.
    rewrite Er at 1. now rewrite rev_app_distr.
  - now rewrite forallb_rev.
  - destruct (lstrip s) as [|c rest] eqn:L; [reflexivity|].
    pose proof (lstrip_head s L) as C.
    simpl rev.
    destruct (@lstrip_app_keep (rev rest) c [] C) as (a' & Ea).
    rewrite Ea, rev_app_distr.
    destruct a' as [|x a'].
    + simpl. now rewrite C.
    + pose proof (lstrip_head (rev rest ++ [c]) Ea) as X.
      simpl rev. simpl app. now apply trimmed_ends.
Qed.

Lemma strip_spaces (s : str) :
  forallb isspace s = true -> strip s = [].
Proof.
  intros Hs. unfold strip. now rewrite (lstrip_spaces s Hs).
Qed.

Lemma strip_incl (s : str) c : In c (strip s) -> In c s.
Proof.
  destruct (strip_decomp s) as (pre & post & E & _).
  intros Hin. rewrite E. apply in_or_app. right.
  apply in_or_app. now left.
Qed.

(** The list of line 28 is the stripped tokens, the empty ones removed. *)
Lemma strip_filter (tokens : list str) :
  map strip (filter (fun l => truthy (strip l)) tokens)
  = filter truthy (map strip tokens).
Proof.
  induction tokens as [|tok tokens IH]; simpl; [reflexivity|].
  destruct (truthy (strip tok)); simpl; now rewrite IH.
Qed.

Lemma lang_list_tokens (lang : str) :
  Forall (fun tok => tok <> [] /\ trimmed tok = true /\ ~ In comma tok)
    (lang_list lang).
Proof.
  unfold lang_list.
  pose proof (split_no_separator comma lang) as Hsep.
  induction (split comma lang) as [|tok tokens IH]; simpl; [constructor|].
  inversion Hsep as [|? ? Htok Htokens]; subst.
  destruct (truthy (strip tok)) eqn:T; simpl; [|now apply IH].
  constructor; [|now apply IH].
  split; [|split].
  - intros E. rewrite E in T. discriminate.
  - destruct (strip_decomp tok) as (_ & _ & _ & _ & _ & Ht). exact Ht.
  - intros Hin. apply Htok. now apply strip_incl.
Qed.

(** A [lang] made of commas and spaces gives no language. *)
Lemma lang_list_blank (lang : str) :
  Forall (fun c => c = comma \/ isspace c = true) lang ->
  lang_list lang = [].
Proof.
  intros Hblank. unfold lang_list.
  assert (Hall : Forall (fun tok => forallb isspace tok = true)
                   (split comma lang)).
  { induction Hblank as [|c rest Hc Hrest IH]; simpl.
    - constructor; [reflexivity|constructor].
    - destruct (c =? comma)%N eqn:C.
      + constructor; [reflexivity|exact IH].
      + destruct Hc as [Hc|Hc]; [apply N.eqb_neq in C; contradiction|].
        destruct (split comma rest) as [|tok toks].
        * constructor; [simpl; now rewrite Hc|constructor].
        * inversion IH; subst. constructor; [simpl; now rewrite Hc|assumption]. }
  induction Hall as [|tok toks Htok Htoks IH]; simpl; [reflexivity|].
  now rewrite (strip_spaces tok Htok).
Qed.

(* ------------------------------------------------------------------------- *)
(** * [list_available_languages] *)
(* ------------------------------------------------------------------------- *)

Section Languages.
Context `{PyFloat} `{!Provider}.

Lemma append_languages_run (it : YT.iteration) :
  forall s,
    append_languages it s
    = (match YT.failure it with
       | Some e => Raises e
       | None => Returns tt
       end,
       {| locals := locals s ++ map language_info (YT.yielded it);
          calls := calls s |}).
Proof.
  induction it as [|t rest IH|e]; intros s; simpl.
  - unfold ret. rewrite app_nil_r. now destruct s.
  - unfold bind, modify. rewrite IH. simpl. now rewrite <- app_assoc.
  - unfold raise. rewrite app_nil_r. now destruct s.
Qed.

Lemma failure_iteration_of (tracks : list YT.Transcript) :
  YT.failure (YT.iteration_of tracks) = None.
Proof. induction tracks; simpl; auto. Qed.

Lemma yielded_iteration_of (tracks : list YT.Transcript) :
  YT.yielded (YT.iteration_of tracks) = tracks.
Proof. induction tracks; simpl; congruence. Qed.

(** The dictionary of [list_available_languages], by what the library
    does. *)
Lemma list_available_languages_run (video_id : str) :
  list_available_languages video_id
  = Returns
      match list_transcripts video_id with
      | Raises e => languages_failed video_id e
      | Returns tl =>
        match YT.failure (YT.iter tl) with
        | Some e => languages_failed video_id e
        | None => languages_found video_id (YT.yielded (YT.iter tl))
        end
      end.
Proof.
  unfold list_available_languages, list_available_languages_stmt.
  rewrite try_bind. unfold perform at 1. simpl.
  destruct (list_transcripts video_id) as [tl|e]; [|reflexivity].
  unfold try_except, bind, modify, perform, get, ret. simpl.
  rewrite append_languages_run. simpl.
  destruct (YT.failure (YT.iter tl)); reflexivity.
Qed.

(** C8.  When the library lists the tracks of the video,
    [list_available_languages] returns their codes, names and flags in the
    order listed; when the listing or the iteration raises, it returns
    [success] false with the description of the exception and no language;
    it never raises. *)
Theorem languages_listed (video_id : str) :
  (forall tl tracks,
      list_transcripts video_id = Returns tl ->
      YT.iter tl = YT.iteration_of tracks ->
      list_available_languages video_id
      = Returns {| languages_success := true;
                   languages_video_id := video_id;
                   languages := map language_info tracks;
                   languages_error := None |})
  /\ (forall e,
        list_transcripts video_id = Raises e ->
        list_available_languages video_id
        = Returns {| languages_success := false;
                     languages_video_id := video_id;
                     languages := [];
                     languages_error := Some (exn_str e) |})
  /\ (forall tl e,
        list_transcripts video_id = Returns tl ->
        YT.failure (YT.iter tl) = Some e ->
        list_available_languages video_id
        = Returns {| languages_success := false;
                     languages_video_id := video_id;
                     languages := [];
                     languages_error := Some (exn_str e) |})
  /\ exists r, list_available_languages video_id = Returns r.
Proof.
  rewrite list_available_languages_run.
  split; [|split; [|split]].
  - intros tl tracks E Hit. rewrite E, Hit.
    now rewrite failure_iteration_of, yielded_iteration_of.
  - intros e E. now rewrite E.
  - intros tl e E Hf. now rewrite E, Hf.
  - eauto.
Qed.

End Languages.

(** The scenario of the specification: an English manual track and a Korean
    generated one. *)
Lemma languages_listed_witness :
  @list_available_languages _
    (Samples.serving [Samples.en_manual; Samples.ko_generated]) Samples.video
  = Returns
      {| languages_success := true;
         languages_video_id := Samples.video;
         languages :=
           [ {| code := py "en"; name := py "English";
                info_is_generated := false |};
             {| code := py "ko"; name := py "Korean";
                info_is_generated := true |} ];
         languages_error := None |}.
Proof.
  refine (proj1 (@languages_listed centiseconds
                   (Samples.serving [Samples.en_manual; Samples.ko_generated])
                   Samples.video)
            (transcript_list_of [Samples.en_manual; Samples.ko_generated])
            [Samples.en_manual; Samples.ko_generated] _ _);
    reflexivity.
Defined.

(* ------------------------------------------------------------------------- *)
(** * The priority list of GET /api/transcript *)
(* ------------------------------------------------------------------------- *)

Section Query.
Context `{PyFloat} `{!Provider}.

(** C9.  The handler calls [extract_transcript] with the comma-separated
    tokens of [lang], in order, each stripped, the empty ones removed; the
    tokens it passes are not empty, have no space at either end and hold no
    comma; without [lang] the string is ["ko,en"] and the priority is
    [["ko", "en"]]. *)
Theorem priority_of_query (v : str) (lang : str) :
  lang_list lang = spec_tokens lang
  /\ join [comma] (split comma lang) = lang
  /\ Forall (fun piece => ~ In comma piece) (split comma lang)
  /\ Forall (fun tok => tok <> [] /\ trimmed tok = true /\ ~ In comma tok)
       (lang_list lang)
  /\ get_transcript v (Some lang)
     = extract_transcript v (Some (spec_tokens lang))
  /\ query_lang None = py "ko,en"
  /\ get_transcript v None = extract_transcript v (Some [py "ko"; py "en"]).
Proof.
  assert (E : lang_list lang = spec_tokens lang) by apply strip_filter.
  split; [exact E|].
  split; [apply split_join|].
  split; [apply split_no_separator|].
  split; [apply lang_list_tokens|].
  split; [|split; reflexivity].
  unfold get_transcript. simpl. now rewrite E.
Qed.

(** C10.  The handler always passes a list.  A [lang] made only of commas
    and spaces gives the empty list, for which [extract_transcript] makes no
    search for a priority language: after listing the tracks it iterates
    over them and downloads the first.  The default priority is used when
    the argument is [None], and only then. *)
Theorem empty_priority_skips_search (v : str) (lang : str) :
  Forall (fun c => c = comma \/ isspace c = true) lang ->
  lang_list lang = []
  /\ get_transcript v (Some lang) = extract_transcript v (Some [])
  /\ default_priority (Some []) = []
  /\ default_priority None = [py "ko"; py "en"]
  /\ existsb is_priority_search (extract_transcript_calls v (Some []))
     = false
  /\ extract_transcript_calls v (Some [])
     = ListTranscripts v
       :: match list_transcripts v with
          | Raises _ => []
          | Returns tl =>
            Iterate
            :: match YT.iter tl with
               | YT.Yield t _ => [Fetch (YT.language_code t)]
               | _ => []
               end
          end
  /\ extract_transcript v (Some [])
     = Returns
         match list_transcripts v with
         | Raises e => failure_result v false (error_message e)
         | Returns tl =>
           match YT.iter tl with
           | YT.Yield t _ => result_of_track v (YT.is_generated t) t
           | _ => failure_result v false msg_no_transcript
           end
         end.
Proof.
  intros Hblank.
  pose proof (lang_list_blank Hblank) as E.
  split; [exact E|].
  split; [unfold get_transcript; simpl; now rewrite E|].
  split; [reflexivity|]. split; [reflexivity|].
  assert (Hrun :
    run_extract_transcript v (Some [])
    = let r := match list_transcripts v with
               | Raises e => failure_result v false (error_message e)
               | Returns tl =>
                 match YT.iter tl with
                 | YT.Yield t _ => result_of_track v (YT.is_generated t) t
                 | _ => failure_result v false msg_no_transcript
                 end
               end in
      (Returns r,
       {| locals := r;
          calls := ListTranscripts v
                   :: match list_transcripts v with
                      | Raises _ => []
                      | Returns tl =>
                        Iterate
                        :: match YT.iter tl with
                           | YT.Yield t _ => [Fetch (YT.language_code t)]
                           | _ => []
                           end
                      end |})).
  { destruct (list_transcripts v) as [tl|e] eqn:L.
    - destruct (run_listing_returns v (Some []) L) as (cs & sel & Hsel & Hr).
      rewrite Hr. simpl in Hsel.
      destruct Hsel as [sm t Hm|sm e Hm|sm sg t Hm Hg|sm sg e Hm Hg
                        |sm sg Hm Hg];
        try (inversion Hm; fail);
        try (inversion Hg; fail).
      inversion Hm; subst. inversion Hg; subst. simpl.
      destruct (YT.iter tl); reflexivity.
    - now rewrite (run_listing_raises v (Some []) L). }
  unfold extract_transcript_calls, extract_transcript. rewrite Hrun. simpl.
  split; [|split; reflexivity].
  destruct (list_transcripts v) as [tl|e]; [|reflexivity].
  simpl. destruct (YT.iter tl); reflexivity.
Qed.

End Query.

(** A query [lang= , ,] on a video with a generated French track listed
    before a manual English one: the French track is fetched, where the
    default priority fetches the English one. *)
Lemma empty_priority_skips_search_witness :
  let tracks := [Samples.fr_generated; Samples.en_manual] in
  lang_list (py " , ,") = []
  /\ existsb is_priority_search
       (@extract_transcript_calls _ (Samples.serving tracks) Samples.video
          (Some [])) = false
  /\ @get_transcript _ (Samples.serving tracks) Samples.video
       (Some (py " , ,"))
     = Returns (result_of_track Samples.video true Samples.fr_generated)
  /\ @extract_transcript _ (Samples.serving tracks) Samples.video None
     = Returns (result_of_track Samples.video false Samples.en_manual).
Proof.
  assert (Hblank : Forall (fun c => c = comma \/ isspace c = true)
                     (py " , ,")).
  { repeat constructor; (now left) || (now right). }
  pose proof (@empty_priority_skips_search centiseconds
                (Samples.serving [Samples.fr_generated; Samples.en_manual])
                Samples.video (py " , ,") Hblank)
    as (E & Hget & _ & _ & Hcalls & _ & Hres).
  split; [exact E|]. split; [exact Hcalls|].
  split; [rewrite Hget; exact Hres|reflexivity].
Defined.

(* ------------------------------------------------------------------------- *)
(** * More on the selection *)
(* ------------------------------------------------------------------------- *)


Section MoreSelection.
Context `{PyFloat} `{!Provider}.

(** X1.  When a video has no manual track in a language of the priority
    list but has a generated track in one, [extract_transcript] chooses a
    generated track whose language is the first language of the priority
    list that has one, and [is_generated] is true in the dictionary, also
    when the download of that track fails. *)
Theorem generated_track_selected (video_id : str)
    (lang_priority : option (list str))
    (tl : YT.TranscriptList) (tracks : list YT.Transcript) :
  list_transcripts video_id = Returns tl ->
  lists_tracks tl tracks ->
  (forall lang, In lang (default_priority lang_priority) ->
                has_track false tracks lang = false) ->
  (exists lang, In lang (default_priority lang_priority)
                /\ has_track true tracks lang = true) ->
  exists t r,
    In t tracks
    /\ YT.is_generated t = true
    /\ List.find (has_track true tracks) (default_priority lang_priority)
       = Some (YT.language_code t)
    /\ extract_transcript video_id lang_priority = Returns r
    /\ r = result_of_track video_id true t
    /\ is_generated r = true.
Proof.
  intros E Htl Hman (lang & Hin & Hhas).
  destruct (extract_listing_returns video_id lang_priority E)
    as (cs & sel & Hsel & Heq).
  pose proof (selects_tracks Htl Hsel) as Hs.
  destruct sel as [[[generated t]|]|e]; simpl in *.
  - destruct Hs as (Ht & Hg & [(G & Hf)|[(G & _ & Hf)|(_ & Hn & _)]]).
    + apply find_some in Hf. destruct Hf as (Hl & Hh).
      rewrite (Hman _ Hl) in Hh. discriminate.
    + rewrite G in Heq, Hg. exists t, (result_of_track video_id true t).
      repeat split; try assumption.
      apply is_generated_result_of_track.
    + rewrite (find_none _ _ Hn lang Hin) in Hhas. discriminate.
  - subst tracks. discriminate.
  - contradiction.
Qed.

(** X2.  When a video has at least one track, [extract_transcript] always
    chooses one of its tracks: the dictionary is the one of that track with
    [is_generated] the track's own flag.  [success] is true when the
    download of the chosen track returns and each of its entries can be
    read, and only then; it is false when the download raises or the
    reading of an entry raises, and only then. *)
Theorem some_track_chosen (video_id : str) (lang_priority : option (list str))
    (tl : YT.TranscriptList) (tracks : list YT.Transcript) :
  list_transcripts video_id = Returns tl ->
  lists_tracks tl tracks ->
  tracks <> [] ->
  exists t r,
    In t tracks
    /\ extract_transcript video_id lang_priority = Returns r
    /\ r = result_of_track video_id (YT.is_generated t) t
    /\ is_generated r = YT.is_generated t
    /\ (success r = true
        <-> exists fetched segs,
              YT.fetch t = Returns fetched
              /\ segments_of fetched = Returns segs)
    /\ (success r = false
        <-> (exists e, YT.fetch t = Raises e)
            \/ (exists fetched e,
                   YT.fetch t = Returns fetched
                   /\ segments_of fetched = Raises e)).
Proof.
  intros E Htl Hne.
  destruct (extract_listing_returns video_id lang_priority E)
    as (cs & sel & Hsel & Heq).
  pose proof (selects_tracks Htl Hsel) as Hs.
  destruct sel as [[[generated t]|]|e]; simpl in *;
    [|contradiction|contradiction].
  destruct Hs as (Ht & Hg & _). subst generated.
  exists t, (result_of_track video_id (YT.is_generated t) t).
  split; [exact Ht|]. split; [exact Heq|]. split; [reflexivity|].
  split; [apply is_generated_result_of_track|].
  split; [apply success_result_of_track|].
  unfold result_of_track. destruct (YT.fetch t) as [fetched|e]; simpl.
  - destruct (segments_of fetched) as [segs|e] eqn:S; simpl.
    + split; [discriminate|].
      intros [(e & C)|(f & e & C & S')]; [discriminate|].
      injection C as <-. congruence.
    + split; [|reflexivity]. intros _. right. eauto.
  - split; [|reflexivity]. intros _. left. eauto.
Qed.


(** X7.  The language of a successful dictionary is one of the languages
    [list_available_languages] returns for the same video, listed with the
    same generated flag. *)
Theorem language_among_listed (video_id : str)
    (lang_priority : option (list str))
    (tl : YT.TranscriptList) (tracks : list YT.Transcript)
    (r : TranscriptResult) :
  list_transcripts video_id = Returns tl ->
  lists_tracks tl tracks ->
  extract_transcript video_id lang_priority = Returns r ->
  success r = true ->
  exists listed info,
    list_available_languages video_id = Returns listed
    /\ languages_success listed = true
    /\ In info (languages listed)
    /\ language r = Some (code info)
    /\ is_generated r = info_is_generated info.
Proof.
  intros E Htl Er Hs.
  destruct (extract_listing_returns video_id lang_priority E)
    as (cs & sel & Hsel & Heq).
  rewrite Er in Heq. injection Heq as ->.
  pose proof (selects_tracks Htl Hsel) as Ht.
  rewrite list_available_languages_run, E, (lists_iter Htl).
  rewrite failure_iteration_of, yielded_iteration_of.
  destruct sel as [[[generated t]|]|e]; simpl in *;
    [|discriminate Hs|contradiction].
  destruct Ht as (Hin & Hg & _).
  exists (languages_found video_id tracks), (language_info t).
  split; [reflexivity|]. split; [reflexivity|].
  split; [simpl; now apply in_map|].
  unfold result_of_track in *.
  destruct (YT.fetch t) as [fetched|e]; [|discriminate Hs].
  destruct (segments_of fetched); [|discriminate Hs].
  simpl. split; [reflexivity|]. now rewrite Hg.
Qed.

End MoreSelection.

Section MoreFailures.
Context `{PyFloat}.

Lemma scanned_until (find : list str -> outcome YT.Transcript)
    (pre : list str) lang (post : list str) e :
  (forall l, In l pre -> not_found (find [l])) ->
  find [lang] = Raises e ->
  exn_class e <> NoTranscriptFound ->
  scanned find (pre ++ lang :: post) (pre ++ [lang]) (Raises e).
Proof.
  intros Hpre E C. induction pre as [|l pre IH]; simpl.
  - now apply scanned_fail.
  - destruct (Hpre l (or_introl eq_refl)) as (e' & E' & C').
    eapply scanned_miss; eauto.
    apply IH. intros l' Hl'. apply Hpre. now right.
Qed.

(** A language no search finds a track for can be added to the list: the
    outcome of the scan is the same. *)
Lemma scanned_insert (find : list str -> outcome YT.Transcript)
    (pre : list str) lang (post : list str) :
  not_found (find [lang]) ->
  forall sm o,
    scanned find (pre ++ post) sm o ->
    exists sm', scanned find (pre ++ lang :: post) sm' o.
Proof.
  intros (e & E & C). induction pre as [|l pre IH]; simpl; intros sm o Hs.
  - exists (lang :: sm). eapply scanned_miss; eauto.
  - inversion Hs as [|? ? t Et|? ? e' searched ? Ee Ce Hrest|? ? e' Ee Ce];
      subst.
    + exists [l]. now apply scanned_hit.
    + destruct (IH _ _ Hrest) as (sm' & Hs').
      exists (l :: sm'). eapply scanned_miss; eauto.
    + exists [l]. now eapply scanned_fail; eauto.
Qed.

Lemma selects_insert (tl : YT.TranscriptList)
    (pre : list str) lang (post : list str) cs sel :
  not_found (YT.find_manually_created_transcript tl [lang]) ->
  not_found (YT.find_generated_transcript tl [lang]) ->
  selects tl (pre ++ post) cs sel ->
  exists cs', selects tl (pre ++ lang :: post) cs' sel.
Proof.
  intros Nm Ng Hsel.
  destruct Hsel as [sm t Hm|sm e Hm|sm sg t Hm Hg|sm sg e Hm Hg|sm sg Hm Hg];
    destruct (@scanned_insert _ pre lang post Nm _ _ Hm) as (sm' & Hm');
    try destruct (@scanned_insert _ pre lang post Ng _ _ Hg) as (sg' & Hg');
    eexists.
  - eapply selects_manual; eassumption.
  - eapply selects_manual_raises; eassumption.
  - eapply selects_generated; eassumption.
  - eapply selects_generated_raises; eassumption.
  - eapply selects_any; eassumption.
Qed.

Context `{!Provider}.

(** X3.  A search for a manual track that raises anything but
    [NoTranscriptFound] ends the selection: the languages after it are not
    searched, no generated track is looked for, nothing is downloaded, and
    the dictionary reports that exception. *)
Theorem search_failure_ends_selection (video_id : str)
    (tl : YT.TranscriptList) (pre : list str) (lang : str)
    (post : list str) (e : exn) :
  list_transcripts video_id = Returns tl ->
  (forall l, In l pre ->
             not_found (YT.find_manually_created_transcript tl [l])) ->
  YT.find_manually_created_transcript tl [lang] = Raises e ->
  exn_class e <> NoTranscriptFound ->
  extract_transcript video_id (Some (pre ++ lang :: post))
  = Returns (failure_result video_id false (error_message e))
  /\ extract_transcript_calls video_id (Some (pre ++ lang :: post))
     = ListTranscripts video_id
       :: map (fun l => FindManual [l]) (pre ++ [lang]).
Proof.
  intros E Hpre Ee C.
  pose proof (@scanned_until _ pre lang post e Hpre Ee C) as Hs.
  destruct (run_listing_returns video_id (Some (pre ++ lang :: post)) E)
    as (cs & sel & Hsel & Hrun).
  simpl in Hsel.
  destruct (selects_functional Hsel (@selects_manual_raises _ tl _ _ _ Hs))
    as (-> & ->).
  unfold extract_transcript, extract_transcript_calls.
  rewrite Hrun. simpl. now rewrite app_nil_r.
Qed.

(** X9.  A language for which the library finds neither a manual nor a
    generated track can be added anywhere in the priority list: the
    dictionary returned is the same. *)
Theorem absent_language_ignored (video_id : str)
    (tl : YT.TranscriptList) (pre : list str) (lang : str)
    (post : list str) :
  list_transcripts video_id = Returns tl ->
  not_found (YT.find_manually_created_transcript tl [lang]) ->
  not_found (YT.find_generated_transcript tl [lang]) ->
  extract_transcript video_id (Some (pre ++ lang :: post))
  = extract_transcript video_id (Some (pre ++ post)).
Proof.
  intros E Nm Ng.
  destruct (extract_listing_returns video_id (Some (pre ++ post)) E)
    as (cs & sel & Hsel & Heq).
  destruct (extract_listing_returns video_id (Some (pre ++ lang :: post)) E)
    as (cs' & sel' & Hsel' & Heq').
  simpl in Hsel, Hsel'.
  destruct (@selects_insert tl pre lang post _ _ Nm Ng Hsel) as (cs'' & Hsel'').
  destruct (selects_functional Hsel' Hsel'') as (_ & ->).
  congruence.
Qed.


End MoreFailures.

(** X6.  A video for which the library lists no track and a video for which
    the listing raises [NoTranscriptAvailable] give the same dictionary. *)
Theorem no_track_like_unavailable `{PyFloat}
    (listing raising : Provider) (video_id : str)
    (lang_priority1 lang_priority2 : option (list str))
    (tl : YT.TranscriptList) (e : exn) :
  @list_transcripts _ listing video_id = Returns tl ->
  lists_tracks tl [] ->
  @list_transcripts _ raising video_id = Raises e ->
  exn_class e = NoTranscriptAvailable ->
  @extract_transcript _ listing video_id lang_priority1
  = @extract_transcript _ raising video_id lang_priority2.
Proof.
  intros E Htl Er C.
  rewrite (@extract_listing_raises _ raising video_id lang_priority2 e Er).
  destruct (@extract_listing_returns _ listing video_id lang_priority1 tl E)
    as (cs & sel & Hsel & Heq).
  pose proof (selects_tracks Htl Hsel) as Hs.
  rewrite Heq. unfold error_message. rewrite C.
  destruct sel as [[[generated t]|]|e']; simpl in *.
  - destruct Hs as (Hin & _). contradiction.
  - reflexivity.
  - contradiction.
Qed.

(* ------------------------------------------------------------------------- *)
(** * More on the priority list of the query *)
(* ------------------------------------------------------------------------- *)

Lemma split_single (sep : codepoint) (s : str) :
  ~ In sep s -> split sep s = [s].
Proof.
  induction s as [|c rest IH]; intros Hno; [reflexivity|].
  simpl. destruct (c =? sep)%N eqn:C.
  - apply N.eqb_eq in C. exfalso. apply Hno. now left.
  - rewrite IH; [reflexivity|]. intros Hin. apply Hno. now right.
Qed.

Lemma split_app_separator (sep : codepoint) (a b : str) :
  ~ In sep a -> split sep (a ++ sep :: b) = a :: split sep b.
Proof.
  induction a as [|c a IH]; intros Hno; simpl.
  - now rewrite N.eqb_refl.
  - destruct (c =? sep)%N eqn:C.
    + apply N.eqb_eq in C. exfalso. apply Hno. now left.
    + rewrite IH; [reflexivity|]. intros Hin. apply Hno. now right.
Qed.

(** Splitting the join of pieces that hold no separator gives the pieces. *)
Lemma split_of_join (sep : codepoint) (toks : list str) :
  toks <> [] ->
  Forall (fun tok => ~ In sep tok) toks ->
  split sep (join [sep] toks) = toks.
Proof.
  induction toks as [|tok toks IH]; intros Hne Hall; [contradiction|].
  inversion Hall as [|? ? Htok Htoks]; subst.
  destruct toks as [|tok' toks].
  - simpl. now apply split_single.
  - change (join [sep] (tok :: tok' :: toks))
      with (tok ++ sep :: join [sep] (tok' :: toks)).
    rewrite split_app_separator by assumption.
    rewrite IH; [reflexivity|discriminate|assumption].
Qed.

Lemma lstrip_keeps (c : codepoint) (rest : str) :
  isspace c = false -> lstrip (c :: rest) = c :: rest.
Proof. intros C. simpl. now rewrite C. Qed.

Lemma rstrip_keeps (s : str) (d : codepoint) :
  s <> [] -> isspace (last s d) = false -> rstrip s = s.
Proof.
  intros Hne D. destruct (exists_last Hne) as (init & x & ->).
  rewrite last_last in D. unfold rstrip.
  rewrite rev_app_distr. cbn [rev app].
  rewrite (@lstrip_keeps x (rev init) D).
  cbn [rev]. now rewrite rev_involutive.
Qed.

(** [strip] leaves a string with no space at either end as it is. *)
Lemma strip_trimmed (s : str) : trimmed s = true -> strip s = s.
Proof.
  destruct s as [|c rest]; [reflexivity|].
  intros T. unfold trimmed in T. apply andb_true_iff in T.
  destruct T as (C & D).
  apply negb_true_iff in C. apply negb_true_iff in D.
  unfold strip. rewrite (@lstrip_keeps c rest C).
  apply (@rstrip_keeps (c :: rest) c); [discriminate|exact D].
Qed.

(** X8.  A list of language codes that are not empty, have no space at
    either end and hold no comma is passed unchanged when written as a
    comma-separated [lang]; hence the list the handler builds from any
    [lang] is the one it builds from that list joined by commas. *)
Theorem lang_list_of_join :
  (forall codes,
      Forall (fun tok => tok <> [] /\ trimmed tok = true /\ ~ In comma tok)
        codes ->
      lang_list (join [comma] codes) = codes)
  /\ (forall lang,
        lang_list (join [comma] (lang_list lang)) = lang_list lang).
Proof.
  assert (E : forall codes,
             Forall (fun tok => tok <> [] /\ trimmed tok = true
                                /\ ~ In comma tok) codes ->
             lang_list (join [comma] codes) = codes).
  { intros codes Hall.
    destruct codes as [|tok toks] eqn:Ec; [reflexivity|].
    rewrite <- Ec in *. unfold lang_list.
    rewrite split_of_join.
    - clear Ec. induction Hall as [|t ts (Hne & Ht & _) _ IH];
        [reflexivity|].
      assert (Tt : truthy t = true) by (destruct t; [congruence|reflexivity]).
      cbn [filter]. rewrite (strip_trimmed t Ht), Tt.
      cbn [map]. now rewrite (strip_trimmed t Ht), IH.
    - rewrite Ec. discriminate.
    - eapply Forall_impl; [|exact Hall]. simpl. tauto. }
  split; [exact E|]. intros lang. apply E. apply lang_list_tokens.
Qed.

(** The codes [" ko , en"] gives. *)
Lemma lang_list_of_join_witness :
  lang_list (py " ko , en") = [py "ko"; py "en"]
  /\ lang_list (join [comma] [py "ko"; py "en"]) = [py "ko"; py "en"]
  /\ lang_list (join [comma] (lang_list (py " ko , en")))
     = lang_list (py " ko , en").
Proof.
  split; [reflexivity|].
  assert (Hall : Forall (fun tok => tok <> [] /\ trimmed tok = true
                                    /\ ~ In comma tok)
                   [py "ko"; py "en"]).
  { repeat constructor; try discriminate; try reflexivity;
      simpl; intros [C|[C|[]]]; discriminate C. }
  split; [exact (proj1 lang_list_of_join _ Hall)|].
  exact (proj2 lang_list_of_join (py " ko , en")).
Defined.

(* ------------------------------------------------------------------------- *)
(** * Sample runs *)
(* ------------------------------------------------------------------------- *)

(** The scenario of the specification: a video with only a generated
    English track, default priority. *)
Lemma generated_track_selected_witness :
  let tracks := [Samples.en_generated] in
  exists t r,
    In t tracks
    /\ YT.is_generated t = true
    /\ List.find (has_track true tracks) (default_priority None)
       = Some (YT.language_code t)
    /\ @extract_transcript _ (Samples.serving tracks) Samples.video None
       = Returns r
    /\ r = result_of_track Samples.video true t
    /\ is_generated r = true.
Proof.
  apply (@generated_track_selected centiseconds
           (Samples.serving [Samples.en_generated]) Samples.video None
           (transcript_list_of [Samples.en_generated])).
  - reflexivity.
  - apply transcript_list_of_lists_tracks.
  - intros lang [<-|[<-|[]]]; reflexivity.
  - exists (py "en"). split; [right; left; reflexivity|reflexivity].
Defined.

(** A video with a generated French track and a manual English one. *)
Lemma some_track_chosen_witness :
  let tracks := [Samples.fr_generated; Samples.en_manual] in
  tracks <> []
  /\ exists t r,
       In t tracks
       /\ @extract_transcript _ (Samples.serving tracks) Samples.video None
          = Returns r
       /\ r = result_of_track Samples.video (YT.is_generated t) t
       /\ is_generated r = YT.is_generated t
       /\ (success r = true
           <-> exists fetched segs,
                 YT.fetch t = Returns fetched
                 /\ segments_of fetched = Returns segs)
       /\ (success r = false
           <-> (exists e, YT.fetch t = Raises e)
               \/ (exists fetched e,
                      YT.fetch t = Returns fetched
                      /\ segments_of fetched = Raises e)).
Proof.
  split; [discriminate|].
  apply (@some_track_chosen centiseconds
           (Samples.serving [Samples.fr_generated; Samples.en_manual])
           Samples.video None
           (transcript_list_of [Samples.fr_generated; Samples.en_manual])).
  - reflexivity.
  - apply transcript_list_of_lists_tracks.
  - discriminate.
Defined.

(** The search for a manual Korean track raises an exception of another
    class: English is not searched. *)
Lemma search_failure_ends_selection_witness :
  let e := Exn Exception_ (py "no element found") in
  @extract_transcript _ (@faulty_search centiseconds e) Samples.video
    (Some ([] ++ py "ko" :: [py "en"]))
  = Returns (failure_result Samples.video false (error_message e))
  /\ @extract_transcript_calls _ (@faulty_search centiseconds e) Samples.video
       (Some ([] ++ py "ko" :: [py "en"]))
     = ListTranscripts Samples.video
       :: map (fun l => FindManual [l]) ([] ++ [py "ko"]).
Proof.
  intros e.
  eapply (@search_failure_ends_selection centiseconds (@faulty_search centiseconds e)
            Samples.video _ [] (py "ko") [py "en"] e).
  - reflexivity.
  - intros l [].
  - reflexivity.
  - discriminate.
Defined.

(** Japanese added to the priority of a video with a manual English
    track. *)
Lemma absent_language_ignored_witness :
  @extract_transcript _ (Samples.serving [Samples.en_manual]) Samples.video
    (Some ([py "ko"] ++ py "ja" :: [py "en"]))
  = @extract_transcript _ (Samples.serving [Samples.en_manual]) Samples.video
      (Some ([py "ko"] ++ [py "en"])).
Proof.
  eapply (@absent_language_ignored centiseconds
            (Samples.serving [Samples.en_manual]) Samples.video
            (transcript_list_of [Samples.en_manual])
            [py "ko"] (py "ja") [py "en"]).
  - reflexivity.
  - eexists. split; reflexivity.
  - eexists. split; reflexivity.
Defined.

(** A video with no track and a video whose listing raises
    [NoTranscriptAvailable]. *)
Lemma no_track_like_unavailable_witness :
  let e := Exn NoTranscriptAvailable (py "No transcripts are available") in
  @extract_transcript _ (Samples.serving []) Samples.video None
  = @extract_transcript _ (Samples.failing e) Samples.video
      (Some [py "en"]).
Proof.
  intros e.
  eapply (@no_track_like_unavailable centiseconds (Samples.serving [])
            (Samples.failing e) Samples.video None (Some [py "en"])
            (transcript_list_of []) e).
  - reflexivity.
  - apply transcript_list_of_lists_tracks.
  - reflexivity.
  - reflexivity.
Defined.

(** A video with only a generated English track: English is listed as
    generated. *)
Lemma language_among_listed_witness :
  let r := result_of_track Samples.video true Samples.en_generated in
  success r = true
  /\ exists listed info,
       @list_available_languages _ (Samples.serving [Samples.en_generated])
         Samples.video = Returns listed
       /\ languages_success listed = true
       /\ In info (languages listed)
       /\ language r = Some (code info)
       /\ is_generated r = info_is_generated info.
Proof.
  split; [reflexivity|].
  eapply (@language_among_listed centiseconds
            (Samples.serving [Samples.en_generated]) Samples.video None
            (transcript_list_of [Samples.en_generated])
            [Samples.en_generated]).
  - reflexivity.
  - apply transcript_list_of_lists_tracks.
  - reflexivity.
  - reflexivity.
Defined.

(* ------------------------------------------------------------------------- *)
(** * Priority languages and the lister's dictionary *)
(* ------------------------------------------------------------------------- *)

Section Priority.
Context `{PyFloat} `{!Provider}.

(** X10.  When the video has a track, manual or generated, in some language
    of the priority list, the track [extract_transcript] chooses is in a
    language of the priority list: the fallback to another language is taken
    only when no priority language has a track. *)
Theorem priority_language_when_available (video_id : str)
    (lang_priority : option (list str))
    (tl : YT.TranscriptList) (tracks : list YT.Transcript) :
  list_transcripts video_id = Returns tl ->
  lists_tracks tl tracks ->
  (exists lang generated,
      In lang (default_priority lang_priority)
      /\ has_track generated tracks lang = true) ->
  exists t,
    In t tracks
    /\ In (YT.language_code t) (default_priority lang_priority)
    /\ extract_transcript video_id lang_priority
       = Returns (result_of_track video_id (YT.is_generated t) t).
Proof.
  intros E Htl (lang & g & Hin & Hhas).
  destruct (extract_listing_returns video_id lang_priority E)
    as (cs & sel & Hsel & Heq).
  pose proof (selects_tracks Htl Hsel) as Hs.
  destruct sel as [[[generated t]|]|e]; simpl in *.
  - destruct Hs as (Ht & Hg & [(G & Hf)|[(G & _ & Hf)|(Hm & Hn & _)]]).
    + exists t. apply find_some in Hf. destruct Hf as (Hl & _).
      rewrite Hg. auto.
    + exists t. apply find_some in Hf. destruct Hf as (Hl & _).
      rewrite Hg. auto.
    + destruct g.
      * rewrite (find_none _ _ Hn lang Hin) in Hhas. discriminate.
      * rewrite (find_none _ _ Hm lang Hin) in Hhas. discriminate.
  - subst tracks. destruct g; discriminate.
  - contradiction.
Qed.

(** X11.  [list_available_languages] always returns a dictionary for the
    video it was asked about, in which the key [error] is present exactly
    when [success] is false, and which lists no language when [success] is
    false. *)
Theorem languages_fields (v : str) :
  exists listed,
    list_available_languages v = Returns listed
    /\ languages_video_id listed = v
    /\ (languages_success listed = false
        <-> exists msg, languages_error listed = Some msg)
    /\ (languages_success listed = true <-> languages_error listed = None)
    /\ (languages_success listed = false -> languages listed = []).
Proof.
  rewrite list_available_languages_run. eexists. split; [reflexivity|].
  destruct (list_transcripts v) as [tl|e]; simpl.
  - destruct (YT.failure (YT.iter tl)) as [e|]; simpl.
    + repeat split; eauto; discriminate.
    + repeat split; try discriminate; try reflexivity.
      intros (msg & C). discriminate.
  - repeat split; eauto; discriminate.
Qed.

End Priority.

(** A video with a generated Korean track listed after a generated French
    one, default priority: Korean is chosen. *)
Lemma priority_language_when_available_witness :
  let tracks := [Samples.fr_generated; Samples.ko_generated] in
  has_track true tracks (py "ko") = true
  /\ exists t,
       In t tracks
       /\ In (YT.language_code t) (default_priority None)
       /\ @extract_transcript _ (Samples.serving tracks) Samples.video None
          = Returns (result_of_track Samples.video (YT.is_generated t) t).
Proof.
  split; [reflexivity|].
  apply (@priority_language_when_available centiseconds
           (Samples.serving [Samples.fr_generated; Samples.ko_generated])
           Samples.video None
           (transcript_list_of [Samples.fr_generated; Samples.ko_generated])).
  - reflexivity.
  - apply transcript_list_of_lists_tracks.
  - exists (py "ko"), true. split; [left; reflexivity|reflexivity].
Defined.

(* ------------------------------------------------------------------------- *)
(** * Entries that cannot be read *)
(* ------------------------------------------------------------------------- *)

Section Unreadable.
Context `{PyFloat} `{!Provider}.

(** X12.  For a video with one track whose download returns entries of
    which an attribute cannot be read, the dictionary has [success] false
    and the message of the exception the reading raised, while [language]
    already holds the language of the track (line 92 precedes the reading);
    [segments] and [full_text] are empty and [is_generated] is the track's
    flag. *)
Theorem unreadable_entries_reported (video_id : str)
    (lang_priority : option (list str))
    (tl : YT.TranscriptList) (t : YT.Transcript)
    (fetched : list YT.Snippet) (e : exn) :
  list_transcripts video_id = Returns tl ->
  lists_tracks tl [t] ->
  YT.fetch t = Returns fetched ->
  segments_of fetched = Raises e ->
  exists r,
    extract_transcript video_id lang_priority = Returns r
    /\ success r = false
    /\ language r = Some (YT.language_code t)
    /\ is_generated r = YT.is_generated t
    /\ segments r = []
    /\ full_text r = []
    /\ error r = Some (error_message e).
Proof.
  intros E Htl Hf Hs.
  destruct (extract_listing_returns video_id lang_priority E)
    as (cs & sel & Hsel & Heq).
  pose proof (selects_tracks Htl Hsel) as Ht.
  destruct sel as [[[generated t']|]|e']; simpl in *;
    [|discriminate|contradiction].
  destruct Ht as ([<-|[]] & Hg & _). subst generated.
  eexists. split; [exact Heq|].
  unfold result_of_track. rewrite Hf, Hs. simpl. repeat split.
Qed.

End Unreadable.

(** A video whose only track is downloaded as dictionaries. *)
Lemma unreadable_entries_reported_witness :
  let e := Exn Exception_ (py "'dict' object has no attribute 'start'") in
  exists r,
    @extract_transcript _ (Samples.serving [Samples.fr_dicts])
      Samples.video None = Returns r
    /\ success r = false
    /\ language r = Some (py "fr")
    /\ is_generated r = true
    /\ segments r = []
    /\ full_text r = []
    /\ error r = Some (error_message e).
Proof.
  intros e.
  apply (@unreadable_entries_reported centiseconds
           (Samples.serving [Samples.fr_dicts]) Samples.video None
           (transcript_list_of [Samples.fr_dicts]) Samples.fr_dicts
           [Samples.dict_entry] e).
  - reflexivity.
  - apply transcript_list_of_lists_tracks.
  - reflexivity.
  - reflexivity.
Defined.
